(** * The datepicker's open/close controller

    A shallow embedding of [MatDatepickerBase] and the part of
    [MatDatepickerContent] it drives
    (src/material/datepicker/datepicker-base.ts).

    The class is a mutable object whose methods call into the overlay, dialog
    and zone services and register callbacks with them.  The embedding keeps

    - the object's fields in a record [Datepicker];
    - every call into a collaborator as an [Effect] appended to a trace
      (most recent effect first);
    - every callback handed to a collaborator as a pending subscription,
      fired later by an [Action] of the event loop;
    - [throw] as an outcome next to the state: a JavaScript exception leaves
      the fields as they were mutated so far, so the state is returned in
      both cases. *)

From Stdlib Require Import String Bool ZArith Arith Lia List.
From Stdlib Require Import DecimalString DecimalN.
Import ListNotations.

Set Implicit Arguments.

(** ** Collaborators *)

(** Keycodes of '@angular/cdk/keycodes'.  The module is not part of the
    sources at hand; the two constants carry the DOM [keyCode] values.  No
    proof below depends on the numbers. *)
Definition ESCAPE : Z := 27.
Definition UP_ARROW : Z := 38.

(** A DOM element.  [el_has_focus] is the outcome of
    [typeof element.focus === 'function']. *)
Record HTMLElement : Type := mkElement {
  el_id : nat;
  el_has_focus : bool
}.

(** The injected [DOCUMENT]; [activeElement] may be [null]. *)
Record Document : Type := mkDocument {
  activeElement : option HTMLElement
}.

(** [MatDatepickerControl]: the members the controller's open/close logic
    reads.  [getConnectedOverlayOrigin] returns an [ElementRef], kept as the
    element's identity. *)
Record MatDatepickerControl : Type := mkControl {
  ctl_disabled : bool;
  getConnectedOverlayOrigin : nat
}.

(** Handles handed out by the services: [OverlayRef], [ComponentRef] and
    [MatDialogRef] are object identities. *)
Definition OverlayRef := nat.
Definition ComponentRef := nat.
Definition MatDialogRef := nat.

(** ** Overlay position strategy *)

Inductive HorizontalPos : Type := XStart | XCenter | XEnd.
Inductive VerticalPos : Type := YTop | YCenter | YBottom.

Record ConnectedPosition : Type := mkPosition {
  originX : HorizontalPos;
  originY : VerticalPos;
  overlayX : HorizontalPos;
  overlayY : VerticalPos
}.

Record FlexibleConnectedPositionStrategy : Type := mkStrategy {
  ps_origin : nat;
  ps_transformOriginOn : option string;
  ps_flexibleDimensions : bool;
  ps_viewportMargin : Z;
  ps_positionLocked : bool;
  ps_positions : list ConnectedPosition
}.

(** Modelled from the spec: the position builder of '@angular/cdk/overlay'
    ([flexibleConnectedTo] and the [with...] methods) is not in the sources.
    Each call is taken to record its argument in the strategy; the spec names
    the outcome (anchor, placements, lock, margin) and nothing else. *)
Definition flexibleConnectedTo (origin : nat) : FlexibleConnectedPositionStrategy :=
  {| ps_origin := origin;
     ps_transformOriginOn := None;
     ps_flexibleDimensions := true;
     ps_viewportMargin := 0;
     ps_positionLocked := false;
     ps_positions := [] |}.

Definition withTransformOriginOn (sel : string) (p : FlexibleConnectedPositionStrategy) :=
  {| ps_origin := ps_origin p;
     ps_transformOriginOn := Some sel;
     ps_flexibleDimensions := ps_flexibleDimensions p;
     ps_viewportMargin := ps_viewportMargin p;
     ps_positionLocked := ps_positionLocked p;
     ps_positions := ps_positions p |}.

Definition withFlexibleDimensions (b : bool) (p : FlexibleConnectedPositionStrategy) :=
  {| ps_origin := ps_origin p;
     ps_transformOriginOn := ps_transformOriginOn p;
     ps_flexibleDimensions := b;
     ps_viewportMargin := ps_viewportMargin p;
     ps_positionLocked := ps_positionLocked p;
     ps_positions := ps_positions p |}.

Definition withViewportMargin (m : Z) (p : FlexibleConnectedPositionStrategy) :=
  {| ps_origin := ps_origin p;
     ps_transformOriginOn := ps_transformOriginOn p;
     ps_flexibleDimensions := ps_flexibleDimensions p;
     ps_viewportMargin := m;
     ps_positionLocked := ps_positionLocked p;
     ps_positions := ps_positions p |}.

Definition withLockedPosition (p : FlexibleConnectedPositionStrategy) :=
  {| ps_origin := ps_origin p;
     ps_transformOriginOn := ps_transformOriginOn p;
     ps_flexibleDimensions := ps_flexibleDimensions p;
     ps_viewportMargin := ps_viewportMargin p;
     ps_positionLocked := true;
     ps_positions := ps_positions p |}.

Definition withPositions (l : list ConnectedPosition) (p : FlexibleConnectedPositionStrategy) :=
  {| ps_origin := ps_origin p;
     ps_transformOriginOn := ps_transformOriginOn p;
     ps_flexibleDimensions := ps_flexibleDimensions p;
     ps_viewportMargin := ps_viewportMargin p;
     ps_positionLocked := ps_positionLocked p;
     ps_positions := l |}.

(** The four placements by the names the specification uses: the side of the
    anchor the panel sits on, then the edge it is aligned with. *)
Definition bottom_start : ConnectedPosition := mkPosition XStart YBottom XStart YTop.
Definition top_start : ConnectedPosition := mkPosition XStart YTop XStart YBottom.
Definition bottom_end : ConnectedPosition := mkPosition XEnd YBottom XEnd YTop.
Definition top_end : ConnectedPosition := mkPosition XEnd YTop XEnd YBottom.

(** ** Events of a popup overlay *)

Record KeyboardEvent : Type := mkKey {
  keyCode : Z;
  altKey : bool
}.

(** What the merged stream of [_createPopup] carries: a [MouseEvent] from
    [backdropClick()], [void] from [detachments()], a [KeyboardEvent] from
    [keydownEvents()]. *)
Inductive PopupEvent : Type :=
| BackdropClick
| Detachment
| Keydown (k : KeyboardEvent).

(** ** Effects and errors *)

Inductive Effect : Type :=
| EOverlayCreate (p : OverlayRef) (strategy : FlexibleConnectedPositionStrategy)
| ESetRoleDialog (p : OverlayRef)
| EAttach (p : OverlayRef) (c : ComponentRef)
| EOverlayDispose (p : OverlayRef)
| EUpdatePosition (p : OverlayRef)
| EDialogOpen (d : MatDialogRef)
| EDialogClose (d : MatDialogRef)
| EForwardContentValues (c : ComponentRef)
| EStartExitAnimation (c : ComponentRef)
| EFocus (e : HTMLElement)
| EPreventDefault
| EOpened
| EClosed
| EDisabledChange (b : bool)
| EDisabledChangeComplete
| EUncaughtTypeError.

Inductive Error : Type :=
| MissingDateImplError (provider : string)
| PlainError (message : string)
| TypeError.

Inductive Outcome (A : Type) : Type :=
| Returned (a : A)
| Thrown (e : Error).
Arguments Thrown {A} e.

(** ** The datepicker object *)

Record Datepicker : Type := mkDatepicker {
  _touchUi : bool;
  _disabled : option bool;              (* [undefined] until first assigned *)
  _opened : bool;
  _popupRef : option OverlayRef;
  _dialogRef : option MatDialogRef;
  _popupComponentRef : option ComponentRef;
  _focusedElementBeforeOpen : option HTMLElement;
  _datepickerInput : option MatDatepickerControl;
  _document : option Document;
  _model : nat;                         (* identity of the selection model *)
  (* the world around the object *)
  trace : list Effect;                  (* most recent first *)
  next_handle : nat;                    (* next identity a service hands out *)
  timeouts : nat;                       (* pending [setTimeout(completeClose)] *)
  stableSubs : nat;                     (* pending [onStable ... take(1)] *)
  animationSubs : list ComponentRef;    (* pending [_animationDone ... take(1)] *)
  dialogSubs : list MatDialogRef;       (* pending [afterClosed()] *)
  popupSubs : list OverlayRef           (* popups whose events are subscribed *)
}.

(** Field updates. *)
Definition with_touchUi (v : bool) (s : Datepicker) : Datepicker :=
  mkDatepicker v (_disabled s) (_opened s) (_popupRef s) (_dialogRef s)
    (_popupComponentRef s) (_focusedElementBeforeOpen s) (_datepickerInput s)
    (_document s) (_model s) (trace s) (next_handle s) (timeouts s)
    (stableSubs s) (animationSubs s) (dialogSubs s) (popupSubs s).

Definition with_disabled (v : option bool) (s : Datepicker) : Datepicker :=
  mkDatepicker (_touchUi s) v (_opened s) (_popupRef s) (_dialogRef s)
    (_popupComponentRef s) (_focusedElementBeforeOpen s) (_datepickerInput s)
    (_document s) (_model s) (trace s) (next_handle s) (timeouts s)
    (stableSubs s) (animationSubs s) (dialogSubs s) (popupSubs s).

Definition with_opened (v : bool) (s : Datepicker) : Datepicker :=
  mkDatepicker (_touchUi s) (_disabled s) v (_popupRef s) (_dialogRef s)
    (_popupComponentRef s) (_focusedElementBeforeOpen s) (_datepickerInput s)
    (_document s) (_model s) (trace s) (next_handle s) (timeouts s)
    (stableSubs s) (animationSubs s) (dialogSubs s) (popupSubs s).

Definition with_popupRef (v : option OverlayRef) (s : Datepicker) : Datepicker :=
  mkDatepicker (_touchUi s) (_disabled s) (_opened s) v (_dialogRef s)
    (_popupComponentRef s) (_focusedElementBeforeOpen s) (_datepickerInput s)
    (_document s) (_model s) (trace s) (next_handle s) (timeouts s)
    (stableSubs s) (animationSubs s) (dialogSubs s) (popupSubs s).

Definition with_dialogRef (v : option MatDialogRef) (s : Datepicker) : Datepicker :=
  mkDatepicker (_touchUi s) (_disabled s) (_opened s) (_popupRef s) v
    (_popupComponentRef s) (_focusedElementBeforeOpen s) (_datepickerInput s)
    (_document s) (_model s) (trace s) (next_handle s) (timeouts s)
    (stableSubs s) (animationSubs s) (dialogSubs s) (popupSubs s).

Definition with_popupComponentRef (v : option ComponentRef) (s : Datepicker) : Datepicker :=
  mkDatepicker (_touchUi s) (_disabled s) (_opened s) (_popupRef s) (_dialogRef s)
    v (_focusedElementBeforeOpen s) (_datepickerInput s)
    (_document s) (_model s) (trace s) (next_handle s) (timeouts s)
    (stableSubs s) (animationSubs s) (dialogSubs s) (popupSubs s).

Definition with_focusedElementBeforeOpen (v : option HTMLElement) (s : Datepicker) : Datepicker :=
  mkDatepicker (_touchUi s) (_disabled s) (_opened s) (_popupRef s) (_dialogRef s)
    (_popupComponentRef s) v (_datepickerInput s)
    (_document s) (_model s) (trace s) (next_handle s) (timeouts s)
    (stableSubs s) (animationSubs s) (dialogSubs s) (popupSubs s).

Definition with_datepickerInput (v : option MatDatepickerControl) (s : Datepicker) : Datepicker :=
  mkDatepicker (_touchUi s) (_disabled s) (_opened s) (_popupRef s) (_dialogRef s)
    (_popupComponentRef s) (_focusedElementBeforeOpen s) v
    (_document s) (_model s) (trace s) (next_handle s) (timeouts s)
    (stableSubs s) (animationSubs s) (dialogSubs s) (popupSubs s).

Definition with_document (v : option Document) (s : Datepicker) : Datepicker :=
  mkDatepicker (_touchUi s) (_disabled s) (_opened s) (_popupRef s) (_dialogRef s)
    (_popupComponentRef s) (_focusedElementBeforeOpen s) (_datepickerInput s)
    v (_model s) (trace s) (next_handle s) (timeouts s)
    (stableSubs s) (animationSubs s) (dialogSubs s) (popupSubs s).

Definition with_trace (v : list Effect) (s : Datepicker) : Datepicker :=
  mkDatepicker (_touchUi s) (_disabled s) (_opened s) (_popupRef s) (_dialogRef s)
    (_popupComponentRef s) (_focusedElementBeforeOpen s) (_datepickerInput s)
    (_document s) (_model s) v (next_handle s) (timeouts s)
    (stableSubs s) (animationSubs s) (dialogSubs s) (popupSubs s).

Definition with_next_handle (v : nat) (s : Datepicker) : Datepicker :=
  mkDatepicker (_touchUi s) (_disabled s) (_opened s) (_popupRef s) (_dialogRef s)
    (_popupComponentRef s) (_focusedElementBeforeOpen s) (_datepickerInput s)
    (_document s) (_model s) (trace s) v (timeouts s)
    (stableSubs s) (animationSubs s) (dialogSubs s) (popupSubs s).

Definition with_timeouts (v : nat) (s : Datepicker) : Datepicker :=
  mkDatepicker (_touchUi s) (_disabled s) (_opened s) (_popupRef s) (_dialogRef s)
    (_popupComponentRef s) (_focusedElementBeforeOpen s) (_datepickerInput s)
    (_document s) (_model s) (trace s) (next_handle s) v
    (stableSubs s) (animationSubs s) (dialogSubs s) (popupSubs s).

Definition with_stableSubs (v : nat) (s : Datepicker) : Datepicker :=
  mkDatepicker (_touchUi s) (_disabled s) (_opened s) (_popupRef s) (_dialogRef s)
    (_popupComponentRef s) (_focusedElementBeforeOpen s) (_datepickerInput s)
    (_document s) (_model s) (trace s) (next_handle s) (timeouts s)
    v (animationSubs s) (dialogSubs s) (popupSubs s).

Definition with_animationSubs (v : list ComponentRef) (s : Datepicker) : Datepicker :=
  mkDatepicker (_touchUi s) (_disabled s) (_opened s) (_popupRef s) (_dialogRef s)
    (_popupComponentRef s) (_focusedElementBeforeOpen s) (_datepickerInput s)
    (_document s) (_model s) (trace s) (next_handle s) (timeouts s)
    (stableSubs s) v (dialogSubs s) (popupSubs s).

Definition with_dialogSubs (v : list MatDialogRef) (s : Datepicker) : Datepicker :=
  mkDatepicker (_touchUi s) (_disabled s) (_opened s) (_popupRef s) (_dialogRef s)
    (_popupComponentRef s) (_focusedElementBeforeOpen s) (_datepickerInput s)
    (_document s) (_model s) (trace s) (next_handle s) (timeouts s)
    (stableSubs s) (animationSubs s) v (popupSubs s).

Definition with_popupSubs (v : list OverlayRef) (s : Datepicker) : Datepicker :=
  mkDatepicker (_touchUi s) (_disabled s) (_opened s) (_popupRef s) (_dialogRef s)
    (_popupComponentRef s) (_focusedElementBeforeOpen s) (_datepickerInput s)
    (_document s) (_model s) (trace s) (next_handle s) (timeouts s)
    (stableSubs s) (animationSubs s) (dialogSubs s) v.

(** ** Methods as state transformers that may throw *)

Definition M (A : Type) : Type := Datepicker -> Outcome A * Datepicker.

Definition ret {A : Type} (a : A) : M A := fun s => (Returned a, s).

Definition bind {A B : Type} (c : M A) (k : A -> M B) : M B :=
  fun s =>
    match c s with
    | (Returned a, s') => k a s'
    | (Thrown e, s') => (Thrown e, s')
    end.

Definition throw {A : Type} (e : Error) : M A := fun s => (Thrown e, s).

Definition read {A : Type} (f : Datepicker -> A) : M A := fun s => (Returned (f s), s).

Definition update (f : Datepicker -> Datepicker) : M unit := fun s => (Returned tt, f s).

Declare Scope js_scope.
Delimit Scope js_scope with js.
Notation "x <- c ;; k" := (bind c (fun x => k))
  (at level 61, c at next level, right associativity) : js_scope.
Notation "c ;; k" := (bind c (fun _ => k))
  (at level 61, right associativity) : js_scope.
Local Open Scope js_scope.

(** A call into a collaborator. *)
Definition effect (e : Effect) : M unit :=
  update (fun s => with_trace (e :: trace s) s).

(** A service creating an object: a new identity. *)
Definition fresh : M nat :=
  fun s => (Returned (next_handle s), with_next_handle (S (next_handle s)) s).

Fixpoint repeatM (n : nat) (c : M unit) : M unit :=
  match n with
  | O => ret tt
  | S k => c ;; repeatM k c
  end.

Definition drop (n : nat) (l : list nat) : list nat :=
  filter (fun m => negb (Nat.eqb m n)) l.

Definition member (n : nat) (l : list nat) : bool := existsb (Nat.eqb n) l.

Definition occurrences (n : nat) (l : list nat) : nat :=
  length (filter (Nat.eqb n) l).

Module MatDatepickerBase.

(** The constructor: every field at its initialiser; throws without a date
    adapter. *)
Definition constructor (dateAdapter : bool) (document : option Document)
    (model : nat) : Outcome Datepicker :=
  if negb dateAdapter then Thrown (MissingDateImplError "DateAdapter")
  else Returned
    {| _touchUi := false; _disabled := None; _opened := false;
       _popupRef := None; _dialogRef := None; _popupComponentRef := None;
       _focusedElementBeforeOpen := None; _datepickerInput := None;
       _document := document; _model := model;
       trace := []; next_handle := 0; timeouts := 0; stableSubs := 0;
       animationSubs := []; dialogSubs := []; popupSubs := [] |}.

(** [get touchUi()] and [set touchUi(value)]. *)
Definition touchUi (s : Datepicker) : bool := _touchUi s.
Definition set_touchUi (value : bool) : M unit := update (with_touchUi value).

(** [get disabled()]:
    [this._disabled === undefined && this._datepickerInput ?
       this._datepickerInput.disabled : !!this._disabled]. *)
Definition disabled (s : Datepicker) : bool :=
  match _disabled s, _datepickerInput s with
  | None, Some input => ctl_disabled input
  | None, None => false
  | Some b, _ => b
  end.

(** [set disabled(value)]. *)
Definition set_disabled (value : bool) : M unit :=
  d <- read _disabled ;;
  match d with
  | Some b =>
      if Bool.eqb value b then ret tt
      else update (with_disabled (Some value)) ;; effect (EDisabledChange value)
  | None => update (with_disabled (Some value)) ;; effect (EDisabledChange value)
  end.

(** [get opened()]. *)
Definition opened (s : Datepicker) : bool := _opened s.

(** [_registerInput(input)]. *)
Definition _registerInput (input : MatDatepickerControl) : M nat :=
  i <- read _datepickerInput ;;
  match i with
  | Some _ =>
      throw (PlainError "A MatDatepicker can only be associated with a single input.")
  | None =>
      update (with_datepickerInput (Some input)) ;;
      read _model
  end.

(** The closure [completeClose] of [close()]. *)
Definition completeClose : M unit :=
  o <- read _opened ;;
  if o then
    update (with_opened false) ;;
    effect EClosed ;;
    update (with_focusedElementBeforeOpen None)
  else ret tt.

(** [close()]. *)
Definition close : M unit :=
  o <- read _opened ;;
  if negb o then ret tt
  else
    c <- read _popupComponentRef ;;
    p <- read _popupRef ;;
    match c, p with
    | Some instance, Some _ =>
        effect (EStartExitAnimation instance) ;;
        update (fun s => with_animationSubs (instance :: animationSubs s) s)
    | _, _ => ret tt
    end ;;
    d <- read _dialogRef ;;
    match d with
    | Some r => effect (EDialogClose r) ;; update (with_dialogRef None)
    | None => ret tt
    end ;;
    f <- read _focusedElementBeforeOpen ;;
    match f with
    | Some e =>
        if el_has_focus e then
          effect (EFocus e) ;;
          update (fun s => with_timeouts (S (timeouts s)) s)
        else completeClose
    | None => completeClose
    end.

(** The subscriber of the merged stream: [if (event) event.preventDefault();
    this.close()].  A detachment carries no event object. *)
Definition popupSubscriber (ev : PopupEvent) : M unit :=
  match ev with
  | Detachment => ret tt
  | BackdropClick | Keydown _ => effect EPreventDefault
  end ;;
  close.

(** [_destroyPopup()].  [OverlayRef.dispose()] is not inert: an overlay with
    a portal attached emits on [detachments()] while it is disposed, and an
    overlay held in [_popupRef] is attached ([_openAsPopup] attaches it right
    after creating it) and subscribed ([_createPopup]).  So the subscriber
    runs, without an event object, inside [dispose()], before the two fields
    are nulled. *)
Definition _destroyPopup : M unit :=
  p <- read _popupRef ;;
  match p with
  | Some r =>
      effect (EOverlayDispose r) ;;
      popupSubscriber Detachment ;;
      update (with_popupComponentRef None) ;;
      update (with_popupRef None)
  | None => ret tt
  end.

(** [_createPopupPositionStrategy()].  Reading a member of an absent input
    is a [TypeError]. *)
Definition _createPopupPositionStrategy : M FlexibleConnectedPositionStrategy :=
  i <- read _datepickerInput ;;
  match i with
  | None => throw TypeError
  | Some input =>
      ret (withPositions
             [ mkPosition XStart YBottom XStart YTop;
               mkPosition XStart YTop XStart YBottom;
               mkPosition XEnd YBottom XEnd YTop;
               mkPosition XEnd YTop XEnd YBottom ]
          (withLockedPosition
          (withViewportMargin 8
          (withFlexibleDimensions false
          (withTransformOriginOn ".mat-datepicker-content"
          (flexibleConnectedTo (getConnectedOverlayOrigin input)))))))
  end.

(** [_forwardContentValues(instance)]. *)
Definition _forwardContentValues (c : ComponentRef) : M unit :=
  effect (EForwardContentValues c).

(** [_createPopup()]: the overlay is created and the merged stream of its
    backdrop clicks, detachments and filtered key events is subscribed.  Of
    the overlay config the position strategy is kept; the other entries are
    literals or injected values that no method reads back. *)
Definition _createPopup : M unit :=
  strategy <- _createPopupPositionStrategy ;;
  p <- fresh ;;
  effect (EOverlayCreate p strategy) ;;
  update (with_popupRef (Some p)) ;;
  effect (ESetRoleDialog p) ;;
  update (fun s => with_popupSubs (p :: popupSubs s) s).

(** [_openAsPopup()]. *)
Definition _openAsPopup : M unit :=
  _destroyPopup ;;
  _createPopup ;;
  p <- read _popupRef ;;
  match p with
  | None => throw TypeError
  | Some r =>
      c <- fresh ;;
      effect (EAttach r c) ;;
      update (with_popupComponentRef (Some c)) ;;
      _forwardContentValues c ;;
      update (fun s => with_stableSubs (S (stableSubs s)) s)
  end.

(** [_openAsDialog()].  The dialog service creates the dialog and its
    content component. *)
Definition _openAsDialog : M unit :=
  old <- read _dialogRef ;;
  match old with
  | Some d => effect (EDialogClose d)
  | None => ret tt
  end ;;
  d <- fresh ;;
  c <- fresh ;;
  effect (EDialogOpen d) ;;
  update (with_dialogRef (Some d)) ;;
  update (fun s => with_dialogSubs (d :: dialogSubs s) s) ;;
  _forwardContentValues c.

(** [open()]. *)
Definition open : M unit :=
  o <- read _opened ;;
  dis <- read disabled ;;
  if o || dis then ret tt
  else
    i <- read _datepickerInput ;;
    match i with
    | None =>
        throw (PlainError "Attempted to open an MatDatepicker with no associated input.")
    | Some _ =>
        doc <- read _document ;;
        match doc with
        | Some d => update (with_focusedElementBeforeOpen (activeElement d))
        | None => ret tt
        end ;;
        t <- read touchUi ;;
        (if t then _openAsDialog else _openAsPopup) ;;
        update (with_opened true) ;;
        effect EOpened
    end.

(** [set opened(value) { value ? this.open() : this.close(); }]. *)
Definition set_opened (value : bool) : M unit :=
  if value then open else close.

(** [ngOnDestroy()]. *)
Definition ngOnDestroy : M unit :=
  _destroyPopup ;;
  close ;;
  effect EDisabledChangeComplete.

(** *** Callbacks registered with the collaborators *)

(** The filter on [keydownEvents()] in [_createPopup]. *)
Definition keydownFilter (s : Datepicker) (k : KeyboardEvent) : bool :=
  Z.eqb (keyCode k) ESCAPE
  || (match _datepickerInput s with Some _ => true | None => false end
      && altKey k && Z.eqb (keyCode k) UP_ARROW).

(** The subscriber of [onStable] in [_openAsPopup]:
    [this._popupRef!.updatePosition()].  With [_popupRef] null the call is a
    [TypeError] inside the subscriber, which the stream reports and drops. *)
Definition stableSubscriber : M unit :=
  p <- read _popupRef ;;
  match p with
  | Some r => effect (EUpdatePosition r)
  | None => effect EUncaughtTypeError
  end.

End MatDatepickerBase.

(** [MatDatepickerContent._handleUserSelection()]: [model] is [None] when the
    content has no selection model, else whether the selection is complete. *)
Module MatDatepickerContent.

Definition _handleUserSelection (model : option bool) : M unit :=
  match model with
  | None | Some true => MatDatepickerBase.close
  | Some false => ret tt
  end.

End MatDatepickerContent.

(** ** The event loop

    Between two method calls the services may fire what was registered with
    them.  All closures registered by the class capture [this] only, so a
    pending callback is identified by the stream it waits on. *)
Module EventLoop.
Import MatDatepickerBase.

(** A [setTimeout(completeClose)] comes due. *)
Definition fire_timeout : M unit :=
  n <- read timeouts ;;
  match n with
  | O => ret tt
  | S k => update (with_timeouts k) ;; completeClose
  end.

(** [NgZone.onStable] emits: every pending [take(1)] subscriber runs once and
    is gone. *)
Definition fire_stable : M unit :=
  n <- read stableSubs ;;
  update (with_stableSubs 0) ;;
  repeatM n stableSubscriber.

(** [_animationDone] of content [c] emits: every [take(1)] subscriber that
    [close()] attached to it runs [_destroyPopup()] once. *)
Definition fire_animationDone (c : ComponentRef) : M unit :=
  subs <- read animationSubs ;;
  update (with_animationSubs (drop c subs)) ;;
  repeatM (occurrences c subs) _destroyPopup.

(** [afterClosed()] of dialog [d] emits, once. *)
Definition fire_afterClosed (d : MatDialogRef) : M unit :=
  subs <- read dialogSubs ;;
  if member d subs then update (with_dialogSubs (drop d subs)) ;; close
  else ret tt.

(** Popup [p] emits [ev] on one of its three streams. *)
Definition fire_popupEvent (p : OverlayRef) (ev : PopupEvent) : M unit :=
  subs <- read popupSubs ;;
  if member p subs then
    match ev with
    | Keydown k =>
        pass <- read (fun s => keydownFilter s k) ;;
        if pass then popupSubscriber ev else ret tt
    | BackdropClick | Detachment => popupSubscriber ev
    end
  else ret tt.

Inductive Action : Type :=
| AOpen
| AClose
| ASetOpened (value : bool)
| ASetDisabled (value : bool)
| ASetTouchUi (value : bool)
| ARegisterInput (input : MatDatepickerControl)
| ANgOnDestroy
| AUserSelection (model : option bool)
| ATimeout
| AStable
| AAnimationDone (c : ComponentRef)
| AAfterClosed (d : MatDialogRef)
| APopupEvent (p : OverlayRef) (ev : PopupEvent)
| AActiveElement (e : option HTMLElement)   (* focus moves in the document *)
| AInputDisabled (b : bool).                (* the input is (en/dis)abled *)

Definition perform (a : Action) : M unit :=
  match a with
  | AOpen => open
  | AClose => close
  | ASetOpened v => set_opened v
  | ASetDisabled v => set_disabled v
  | ASetTouchUi v => set_touchUi v
  | ARegisterInput i => _registerInput i ;; ret tt
  | ANgOnDestroy => ngOnDestroy
  | AUserSelection m => MatDatepickerContent._handleUserSelection m
  | ATimeout => fire_timeout
  | AStable => fire_stable
  | AAnimationDone c => fire_animationDone c
  | AAfterClosed d => fire_afterClosed d
  | APopupEvent p ev => fire_popupEvent p ev
  | AActiveElement e =>
      update (fun s =>
        match _document s with
        | Some _ => with_document (Some (mkDocument e)) s
        | None => s
        end)
  | AInputDisabled b =>
      update (fun s =>
        match _datepickerInput s with
        | Some i => with_datepickerInput
                      (Some (mkControl b (getConnectedOverlayOrigin i))) s
        | None => s
        end)
  end.

(** One turn of the loop; an exception ends the turn and is reported, the
    object stays as the turn left it. *)
Definition step (s : Datepicker) (a : Action) : Datepicker := snd (perform a s).

Definition run (acts : list Action) (s : Datepicker) : Datepicker :=
  fold_left step acts s.

(** A host's datepicker after construction and property binding, its trace
    started afresh. *)
Definition instance (touch : bool) (dis : option bool)
    (input : option MatDatepickerControl) (document : option Document)
    (model : nat) : Datepicker :=
  {| _touchUi := touch; _disabled := dis; _opened := false;
     _popupRef := None; _dialogRef := None; _popupComponentRef := None;
     _focusedElementBeforeOpen := None; _datepickerInput := input;
     _document := document; _model := model;
     trace := []; next_handle := 0; timeouts := 0; stableSubs := 0;
     animationSubs := []; dialogSubs := []; popupSubs := [] |}.

End EventLoop.

(** ** Handles alive at a point of a trace *)

(** Overlays created and not disposed since. *)
Fixpoint live_popups (tr : list Effect) : list OverlayRef :=
  match tr with
  | [] => []
  | EOverlayCreate p _ :: tr' => p :: live_popups tr'
  | EOverlayDispose p :: tr' => drop p (live_popups tr')
  | _ :: tr' => live_popups tr'
  end.

(** Dialogs opened and not told to close since. *)
Fixpoint live_dialogs (tr : list Effect) : list MatDialogRef :=
  match tr with
  | [] => []
  | EDialogOpen d :: tr' => d :: live_dialogs tr'
  | EDialogClose d :: tr' => drop d (live_dialogs tr')
  | _ :: tr' => live_dialogs tr'
  end.

Definition live_handles (tr : list Effect) : nat :=
  List.length (live_popups tr) + List.length (live_dialogs tr).

(** At every point of the trace (every suffix, the trace being most recent
    first) at most one handle is alive. *)
Fixpoint at_most_one_live (tr : list Effect) : bool :=
  match tr with
  | [] => true
  | _ :: tr' => (live_handles tr <=? 1) && at_most_one_live tr'
  end.

(** How often popup [p] was re-measured. *)
Definition updates_of (p : OverlayRef) (tr : list Effect) : nat :=
  List.length (filter (fun e => match e with
                                | EUpdatePosition q => Nat.eqb q p
                                | _ => false
                                end) tr).

(** ** Sample runs *)
Module Samples.
Import MatDatepickerBase EventLoop.

Definition button : HTMLElement := mkElement 7 true.
Definition field : MatDatepickerControl := mkControl false 3.
Definition page : Document := mkDocument (Some button).

Definition popup_picker := instance false None (Some field) (Some page) 0.
Definition touch_picker := instance true None (Some field) (Some page) 0.
Definition headless_picker := instance false None (Some field) None 0.

(** The same after a first [open()]. *)
Definition open_popup_picker : Datepicker :=
  Eval vm_compute in step popup_picker AOpen.
Definition open_touch_picker : Datepicker :=
  Eval vm_compute in step touch_picker AOpen.
Definition open_headless_picker : Datepicker :=
  Eval vm_compute in step headless_picker AOpen.

(** A datepicker without an input: as constructed, and after its own
    [disabled] property was set. *)
Definition orphan_picker := instance false None None None 0.
Definition disabled_orphan_picker : Datepicker :=
  Eval vm_compute in step orphan_picker (ASetDisabled true).

(** A popup that was opened, closed and is fading out. *)
Definition closing_headless_picker : Datepicker :=
  Eval vm_compute in run [AOpen; AClose] headless_picker.

End Samples.

(** ** Readings of the specification that the code is compared with *)
Module AsStated.
Import MatDatepickerBase EventLoop.

(** "[open()] without a registered input always fails." *)
Definition open_without_input_always_throws : Prop :=
  forall s : Datepicker,
    _datepickerInput s = None -> exists e, open s = (Thrown e, s).

(** "After [close()], focus returns to the element focused before [open()]"
    and "close-state finalization is deferred one tick after focus
    restoration", for every open datepicker. *)
Definition close_always_refocuses_and_defers : Prop :=
  forall s : Datepicker,
    _opened s = true ->
    exists e s',
      close s = (Returned tt, s') /\
      trace s' = EFocus e :: skipn 1 (trace s') /\
      _opened s' = true /\
      timeouts s' = S (timeouts s).

(** "Re-measures position once the surrounding layout stabilizes after
    attach", read as exactly one re-measurement of every popup created. *)
Definition popup_remeasured_exactly_once : Prop :=
  forall (s s' : Datepicker) (p : OverlayRef),
    touchUi s = false ->
    _opened s = false ->
    open s = (Returned tt, s') ->
    _opened s' = true ->
    _popupRef s' = Some p ->
    updates_of p (trace (step s' AStable)) = S (updates_of p (trace s')).

End AsStated.

(** Effects of one kind in a segment of a trace. *)
Definition is_overlay_create (e : Effect) : bool :=
  match e with EOverlayCreate _ _ => true | _ => false end.

Definition is_dialog_open (e : Effect) : bool :=
  match e with EDialogOpen _ => true | _ => false end.

Definition is_opened_emit (e : Effect) : bool :=
  match e with EOpened => true | _ => false end.

Definition is_closed_emit (e : Effect) : bool :=
  match e with EClosed => true | _ => false end.

Definition olist (o : option nat) : list nat :=
  match o with Some n => [n] | None => [] end.

(** Sequences in which the touch-mode property is not reassigned. *)
Definition keeps_touchUi (a : EventLoop.Action) : bool :=
  match a with EventLoop.ASetTouchUi _ => false | _ => true end.

(** The handles the object holds are exactly the live ones, the
    presentation not in use holds none, and at no point of the trace was more
    than one handle alive. *)
Definition consistent (s : Datepicker) : Prop :=
  live_popups (trace s) = olist (_popupRef s) /\
  live_dialogs (trace s) = olist (_dialogRef s) /\
  (if _touchUi s then _popupRef s = None else _dialogRef s = None) /\
  at_most_one_live (trace s) = true.

(** A method that keeps a consistent object consistent, whether it returns
    or throws. *)
Definition preserves {A : Type} (c : M A) : Prop :=
  forall s : Datepicker, consistent s -> consistent (snd (c s)).

(** ** The rest of the class *)


(** [let datepickerUid = 0] and the initialiser
    [id = `mat-datepicker-${datepickerUid++}`].  The counter is a JavaScript
    number that starts at 0 and is only ever incremented, so it holds an
    integer between 0 and 2^53: below 2^53 the increment is exact; at 2^53
    the sum 2^53 + 1 is not a double and rounds back to 2^53, where the
    counter stays. *)
Definition MAX_EXACT : N := 9007199254740992.     (* 2^53 *)

Definition js_increment (x : N) : N :=
  if (x <? MAX_EXACT)%N then N.succ x else x.

(** The id of the instance built when the counter stands at [uid]. *)
Definition datepicker_id (uid : N) : string :=
  String.append "mat-datepicker-" (NilEmpty.string_of_uint (N.to_uint uid)).

(** The initialiser: the id, and the counter afterwards. *)
Definition new_id (datepickerUid : N) : string * N :=
  (datepicker_id datepickerUid, js_increment datepickerUid).

(** The ids of [n] datepickers constructed one after the other, and the
    counter after them. *)
Fixpoint ids_from (datepickerUid : N) (n : nat) : list string :=
  match n with
  | O => []
  | S k => fst (new_id datepickerUid) :: ids_from (snd (new_id datepickerUid)) k
  end.

Fixpoint counter_after (datepickerUid : N) (n : nat) : N :=
  match n with
  | O => datepickerUid
  | S k => counter_after (snd (new_id datepickerUid)) k
  end.

(** The [startAt] property.  [Any] stands for JavaScript values other than
    [null]; [null] is [None].  The date adapter and the truthiness of a value
    belong to the host. *)
Section StartAt.
Variable Any : Type.

Record DateAdapter : Type := mkDateAdapter {
  deserialize : option Any -> option Any;
  isDateInstance : option Any -> bool;
  isValid : option Any -> bool
}.

Variable adapter : DateAdapter.
Variable truthy : Any -> bool.

(** [_getValidDateOrNull(obj)]. *)
Definition _getValidDateOrNull (obj : option Any) : option Any :=
  if isDateInstance adapter obj && isValid adapter obj then obj else None.

(** [set startAt(value)]: the new [_startAt]. *)
Definition set_startAt (value : option Any) : option Any :=
  _getValidDateOrNull (deserialize adapter value).

(** [get startAt()]:
    [this._startAt || (this._datepickerInput ?
       this._datepickerInput.getStartValue() : null)].
    [inputStart] is [None] without a registered input, else what its
    [getStartValue()] returns. *)
Definition startAt (_startAt : option Any) (inputStart : option (option Any)) : option Any :=
  let fallback := match inputStart with Some v => v | None => None end in
  match _startAt with
  | Some d => if truthy d then Some d else fallback
  | None => fallback
  end.

End StartAt.

(** ** Notifications and re-measurements in a trace *)

(** What the most recent 'opened'/'closed' notification says; closed when
    there is none. *)
Fixpoint opened_after (tr : list Effect) : bool :=
  match tr with
  | [] => false
  | EOpened :: _ => true
  | EClosed :: _ => false
  | _ :: tr' => opened_after tr'
  end.

(** 'opened' only ever follows 'closed' (or nothing), 'closed' only ever
    follows 'opened'. *)
Fixpoint alternating (tr : list Effect) : bool :=
  match tr with
  | [] => true
  | EOpened :: tr' => negb (opened_after tr') && alternating tr'
  | EClosed :: tr' => opened_after tr' && alternating tr'
  | _ :: tr' => alternating tr'
  end.

Definition count_closed (tr : list Effect) : nat :=
  List.length (filter is_closed_emit tr).

Definition is_focus (e : Effect) : bool :=
  match e with EFocus _ => true | _ => false end.


(** Every re-measurement in the trace hit an overlay alive at that point. *)
Fixpoint remeasures_live (tr : list Effect) : bool :=
  match tr with
  | [] => true
  | EUpdatePosition p :: tr' => member p (live_popups tr') && remeasures_live tr'
  | _ :: tr' => remeasures_live tr'
  end.

(** ** Invariants of the event loop *)

(** A method that keeps [I], whether it returns or throws. *)
Definition keeps {A : Type} (I : Datepicker -> Prop) (c : M A) : Prop :=
  forall s : Datepicker, I s -> I (snd (c s)).

(** Updates that leave alone the trace, the open flag, the handles and the
    recorded element, and do not inject or remove the document. *)
Definition frame_update (f : Datepicker -> Datepicker) : Prop :=
  forall s : Datepicker,
    trace (f s) = trace s /\
    _opened (f s) = _opened s /\
    _popupRef (f s) = _popupRef s /\
    _dialogRef (f s) = _dialogRef s /\
    _popupComponentRef (f s) = _popupComponentRef s /\
    _focusedElementBeforeOpen (f s) = _focusedElementBeforeOpen s /\
    (_document (f s) = None <-> _document s = None).

Definition framed (I : Datepicker -> Prop) : Prop :=
  forall f : Datepicker -> Datepicker,
    frame_update f -> forall s : Datepicker, I s -> I (f s).

(** Effects that tell something without creating, disposing, re-measuring,
    focusing or notifying open/close. *)
Definition is_notice (e : Effect) : bool :=
  match e with
  | EPreventDefault | EDisabledChange _ | EDisabledChangeComplete => true
  | _ => false
  end.

(** The open flag says what the last notification said, and notifications
    alternate. *)
Definition in_step (s : Datepicker) : Prop :=
  alternating (trace s) = true /\ opened_after (trace s) = _opened s.

(** The handles held are the live ones, and nothing dead was re-measured. *)
Definition owns_live (s : Datepicker) : Prop :=
  live_popups (trace s) = olist (_popupRef s) /\
  live_dialogs (trace s) = olist (_dialogRef s) /\
  remeasures_live (trace s) = true.

(** No document: nothing recorded, nothing focused. *)
Definition headless (s : Datepicker) : Prop :=
  _document s = None /\
  _focusedElementBeforeOpen s = None /\
  existsb is_focus (trace s) = false.

(** * Properties *)

Import MatDatepickerBase.

(** Unfold a method call on a state given by its fields. *)
Ltac run_method :=
  cbv [open close completeClose set_opened _registerInput _destroyPopup
       popupSubscriber
       _createPopup _createPopupPositionStrategy _openAsPopup _openAsDialog
       _forwardContentValues disabled touchUi opened effect fresh
       bind ret throw read update
       with_touchUi with_disabled with_opened with_popupRef with_dialogRef
       with_popupComponentRef with_focusedElementBeforeOpen
       with_datepickerInput with_document with_trace with_next_handle
       with_timeouts with_stableSubs with_animationSubs with_dialogSubs
       with_popupSubs
       _touchUi _disabled _opened _popupRef _dialogRef _popupComponentRef
       _focusedElementBeforeOpen _datepickerInput _document _model trace
       next_handle timeouts stableSubs animationSubs dialogSubs popupSubs
       ctl_disabled getConnectedOverlayOrigin activeElement el_has_focus
       orb negb fst snd].

Section Guards.

(** The constructor yields the plain instance, or throws without an adapter. *)
Lemma constructor_instance :
  forall (document : option Document) (model : nat),
    constructor true document model =
      Returned (EventLoop.instance false None None document model) /\
    constructor false document model =
      Thrown (MissingDateImplError "DateAdapter").
Proof. intros document model. split; reflexivity. Qed.

(** The guard at the head of [open()]. *)
Lemma open_guard :
  forall s : Datepicker,
    _opened s = true \/ disabled s = true -> open s = (Returned tt, s).
Proof.
  intros s H. unfold open, bind, read, ret.
  destruct H as [H | H]; rewrite H; [reflexivity |].
  now rewrite orb_true_r.
Qed.

(** C1. [open()] on a datepicker that is already open, or that is disabled,
    returns without touching anything: the whole state, trace included, is the
    one before the call, so no handle, no recorded element and no 'opened'
    notification changes.  Consequently [open()] is idempotent: a second call
    right after the first ends as the first did and changes nothing. *)
Theorem open_is_noop_when_open_or_disabled :
  forall s : Datepicker,
    (_opened s = true \/ disabled s = true -> open s = (Returned tt, s)) /\
    (forall out s', open s = (out, s') -> open s' = (out, s')).
Proof.
  intros s. pose proof (open_guard s) as G.
  split; [exact G |].
  intros out s' H.
  destruct (_opened s) eqn:Ho.
  { rewrite G in H by now left. inversion H; subst out s'. apply G. now left. }
  destruct (disabled s) eqn:Hd.
  { rewrite G in H by now right. inversion H; subst out s'. apply G. now right. }
  destruct s as [t d o p dr pc f i doc m tr nh to ss as' ds ps].
  cbn in Ho. subst o. revert H Hd.
  destruct d as [[|]|], i as [[[|] org]|], doc as [[ae]|], t, dr, p;
    run_method; intros H Hd; try discriminate Hd; inversion H; reflexivity.
Qed.

Lemma open_is_noop_when_open_or_disabled_witness :
  open Samples.open_popup_picker = (Returned tt, Samples.open_popup_picker) /\
  open Samples.open_touch_picker = (Returned tt, Samples.open_touch_picker).
Proof.
  split.
  - apply (proj1 (open_is_noop_when_open_or_disabled
                    Samples.open_popup_picker)).
    left. reflexivity.
  - apply (proj2 (open_is_noop_when_open_or_disabled Samples.touch_picker)).
    vm_compute. reflexivity.
Defined.

(** C2, as stated, fails: a datepicker that was disabled before any input
    registered returns from [open()] without throwing. *)
Lemma open_without_input_may_return :
  ~ AsStated.open_without_input_always_throws.
Proof.
  intros H.
  destruct (H Samples.disabled_orphan_picker eq_refl) as [e He].
  discriminate He.
Qed.

(** C2, amended.  With no registered input, [open()] on a datepicker that is
    neither open nor disabled throws and leaves the whole state as it was;
    on one that is disabled (or already open) the guard comes first and the
    call returns as a no-op, without an error. *)
Theorem open_without_input :
  forall s : Datepicker,
    _datepickerInput s = None ->
    (_opened s = false -> disabled s = false ->
     open s =
       (Thrown (PlainError
          "Attempted to open an MatDatepicker with no associated input."), s)) /\
    (_opened s = true \/ disabled s = true -> open s = (Returned tt, s)).
Proof.
  intros s Hi. split.
  - intros Ho Hd. unfold open, bind, read. cbv beta iota.
    rewrite Ho, Hd. cbv beta iota delta [orb]. rewrite Hi. reflexivity.
  - apply open_guard.
Qed.

Lemma open_without_input_witness :
  open Samples.orphan_picker =
    (Thrown (PlainError
       "Attempted to open an MatDatepicker with no associated input."),
     Samples.orphan_picker) /\
  open Samples.disabled_orphan_picker =
    (Returned tt, Samples.disabled_orphan_picker).
Proof.
  split.
  - apply (proj1 (open_without_input Samples.orphan_picker eq_refl));
      reflexivity.
  - apply (proj2 (open_without_input Samples.disabled_orphan_picker eq_refl)).
    right. reflexivity.
Defined.

(** C3. [close()] on a closed datepicker returns without an error and
    without touching anything: the state, trace included, is unchanged, so no
    'closed' notification is emitted. *)
Theorem close_is_noop_when_closed :
  forall s : Datepicker,
    _opened s = false -> close s = (Returned tt, s).
Proof.
  intros s H. unfold close, bind, read. cbv beta iota. rewrite H. reflexivity.
Qed.

Lemma close_is_noop_when_closed_witness :
  close Samples.popup_picker = (Returned tt, Samples.popup_picker).
Proof.
  apply (close_is_noop_when_closed Samples.popup_picker). reflexivity.
Defined.

(** C7. [_registerInput] throws when an input is already registered and
    leaves the state, hence the original input, as it was; on a datepicker
    without an input it stores the input and returns the datepicker's
    selection model. *)
Theorem registerInput_single_input :
  forall (s : Datepicker) (input : MatDatepickerControl),
    (forall old, _datepickerInput s = Some old ->
       _registerInput input s =
         (Thrown (PlainError
            "A MatDatepicker can only be associated with a single input."), s)
       /\ _datepickerInput (snd (_registerInput input s)) = Some old) /\
    (_datepickerInput s = None ->
       _registerInput input s =
         (Returned (_model s), with_datepickerInput (Some input) s)
       /\ _datepickerInput (snd (_registerInput input s)) = Some input).
Proof.
  intros s input. split.
  - intros old H. unfold _registerInput, bind, read. cbv beta iota.
    rewrite H. split; [reflexivity | exact H].
  - intros H. unfold _registerInput, bind, read. cbv beta iota.
    rewrite H. split; reflexivity.
Qed.

Lemma registerInput_single_input_witness :
  _registerInput (mkControl true 9) Samples.popup_picker =
    (Thrown (PlainError
       "A MatDatepicker can only be associated with a single input."),
     Samples.popup_picker) /\
  _registerInput Samples.field (EventLoop.instance false None None None 5) =
    (Returned 5, EventLoop.instance false None (Some Samples.field) None 5).
Proof.
  split.
  - apply (proj1 (registerInput_single_input Samples.popup_picker
                    (mkControl true 9)) Samples.field eq_refl).
  - apply (proj2 (registerInput_single_input
                    (EventLoop.instance false None None None 5)
                    Samples.field) eq_refl).
Defined.

(** C10. Assigning [opened] is the method call: [true] is [open()] and
    [false] is [close()], as functions of the state, so outcome (return or
    exception), resulting state and trace agree, no-op guards included. *)
Theorem set_opened_is_open_or_close :
  forall s : Datepicker,
    set_opened true s = open s /\ set_opened false s = close s.
Proof.
  intros s. split; reflexivity.
Qed.

End Guards.

(** ** Segments of a trace *)

Lemma segment_nil : forall tr : list Effect, tr = [] ++ tr.
Proof. reflexivity. Qed.

Lemma segment_cons :
  forall (e : Effect) (l new tr : list Effect),
    l = new ++ tr -> e :: l = (e :: new) ++ tr.
Proof. intros e l new tr ->. reflexivity. Qed.

(** Split a trace [e1 :: ... :: en :: tr] as [?new ++ tr]. *)
Ltac segment := repeat first [ apply segment_nil | apply segment_cons ].

Section Presentation.

(** C4. When [open()] opens the datepicker (it returns, and the datepicker
    was closed before and is open after), the touch-mode flag alone picks the
    presentation.  In touch mode the dialog handle is set to a newly opened
    dialog, and no overlay is created: the popup fields are untouched.
    Otherwise the popup handle and the popup component are set to a newly
    created overlay and its content, and no dialog is opened: the dialog
    handle is untouched. *)
Theorem open_routes_by_touchUi :
  forall s s' : Datepicker,
    open s = (Returned tt, s') ->
    _opened s = false ->
    _opened s' = true ->
    exists new,
      trace s' = new ++ trace s /\
      (touchUi s = true ->
         _dialogRef s' = Some (next_handle s) /\
         In (EDialogOpen (next_handle s)) new /\
         existsb is_overlay_create new = false /\
         _popupRef s' = _popupRef s /\
         _popupComponentRef s' = _popupComponentRef s) /\
      (touchUi s = false ->
         _popupRef s' = Some (next_handle s) /\
         _popupComponentRef s' = Some (S (next_handle s)) /\
         (exists strategy, In (EOverlayCreate (next_handle s) strategy) new) /\
         In (EAttach (next_handle s) (S (next_handle s))) new /\
         existsb is_dialog_open new = false /\
         _dialogRef s' = _dialogRef s).
Proof.
  intros s s' H Ho Ho'.
  destruct s as [t d o p dr pc f i doc m tr nh to ss as' ds ps].
  cbn in Ho. subst o. revert H.
  destruct d as [[|]|], i as [[[|] org]|], doc as [[ae]|], t, dr, p;
    run_method; intros H; try discriminate; inversion H; subst s';
    try discriminate Ho';
    (eexists; split; [cbn; segment |];
     split; intros Ht; try discriminate Ht; cbn;
     repeat split; try reflexivity; try (eexists; cbn); tauto).
Qed.

Lemma open_routes_by_touchUi_witness :
  (exists new,
     trace Samples.open_touch_picker = new ++ [] /\
     _dialogRef Samples.open_touch_picker = Some 0 /\
     existsb is_overlay_create new = false) /\
  (exists new,
     trace Samples.open_popup_picker = new ++ [] /\
     _popupRef Samples.open_popup_picker = Some 0 /\
     _popupComponentRef Samples.open_popup_picker = Some 1 /\
     existsb is_dialog_open new = false).
Proof.
  split.
  - destruct (open_routes_by_touchUi Samples.touch_picker
                (s' := Samples.open_touch_picker))
      as [new [Htr [Hd _]]]; try (vm_compute; reflexivity).
    exists new. destruct (Hd eq_refl) as [H1 [_ [H3 _]]]. auto.
  - destruct (open_routes_by_touchUi Samples.popup_picker
                (s' := Samples.open_popup_picker))
      as [new [Htr [_ Hp]]]; try (vm_compute; reflexivity).
    exists new. destruct (Hp eq_refl) as [H1 [H2 [_ [_ [H5 _]]]]]. auto.
Defined.

End Presentation.

Section Closing.
Import EventLoop.

(** C5, as stated, fails: on a datepicker opened while no document was
    injected no element is recorded, and [close()] finalizes synchronously
    without focusing anything. *)
Lemma close_may_finalize_synchronously :
  ~ AsStated.close_always_refocuses_and_defers.
Proof.
  intros H.
  destruct (H Samples.open_headless_picker eq_refl)
    as [e [s' [Hc [_ [Ho _]]]]].
  vm_compute in Hc. injection Hc as <-. discriminate Ho.
Qed.

(** C5, amended.  [open()] records the document's active element.  On an
    open datepicker whose recorded element exists and has a [focus] method,
    [close()] focuses that element as its last effect and only schedules the
    finalization: on return the datepicker is still marked open, 'closed'
    has not been emitted, the element is still recorded, and one more timeout
    is pending; when that timeout comes due the datepicker is marked closed,
    'closed' is emitted and the record is cleared.  When no element is
    recorded, or the recorded one has no [focus] method, [close()] focuses
    nothing and finalizes before it returns. *)
Theorem close_restores_focus_then_finalizes :
  forall s : Datepicker,
    (forall s' doc,
       open s = (Returned tt, s') -> _opened s = false -> _opened s' = true ->
       _document s = Some doc ->
       _focusedElementBeforeOpen s' = activeElement doc) /\
    (_opened s = true ->
     forall e,
       _focusedElementBeforeOpen s = Some e -> el_has_focus e = true ->
       exists s1 new,
         close s = (Returned tt, s1) /\
         trace s1 = EFocus e :: new ++ trace s /\
         existsb is_closed_emit new = false /\
         _opened s1 = true /\
         _focusedElementBeforeOpen s1 = Some e /\
         timeouts s1 = S (timeouts s) /\
         fire_timeout s1 = completeClose (with_timeouts (timeouts s) s1) /\
         (let s2 := snd (fire_timeout s1) in
          _opened s2 = false /\
          trace s2 = EClosed :: trace s1 /\
          _focusedElementBeforeOpen s2 = None /\
          timeouts s2 = timeouts s)) /\
    (_opened s = true ->
     (_focusedElementBeforeOpen s = None \/
      exists e, _focusedElementBeforeOpen s = Some e /\ el_has_focus e = false) ->
     exists s1 new,
       close s = (Returned tt, s1) /\
       trace s1 = EClosed :: new ++ trace s /\
       (forall e, ~ In (EFocus e) new) /\
       _opened s1 = false /\
       _focusedElementBeforeOpen s1 = None /\
       timeouts s1 = timeouts s).
Proof.
  intros s.
  destruct s as [t d o p dr pc f i doc m tr nh to ss as' ds ps].
  split; [| split].
  - intros s' doc' H Ho Ho' Hdoc. cbn in Ho, Hdoc. subst o doc. revert H.
    destruct d as [[|]|], i as [[[|] org]|], doc' as [ae], t, dr, p;
      run_method; intros H; try discriminate; inversion H; subst s';
      try discriminate Ho'; reflexivity.
  - intros Ho e Hf He. cbn in Ho, Hf. subst o f.
    destruct e as [id hf]. cbn in He. subst hf.
    destruct pc, p, dr; unfold fire_timeout; run_method;
      (do 2 eexists; split; [reflexivity |];
       split; [cbn; f_equal; segment |]; cbn; repeat split; reflexivity).
  - intros Ho Hf. cbn in Ho. subst o.
    destruct Hf as [Hf | [[id hf] [Hf He]]]; cbn in Hf; subst f;
      [| cbn in He; subst hf];
      destruct pc, p, dr; run_method;
      (do 2 eexists; split; [reflexivity |];
       split; [cbn; f_equal; segment |]; cbn;
       repeat split; try reflexivity;
       intros e Hin; repeat (destruct Hin as [Hin | Hin]; [discriminate |]);
       exact Hin).
Qed.

Lemma close_restores_focus_then_finalizes_witness :
  _focusedElementBeforeOpen Samples.open_popup_picker = Some Samples.button /\
  (exists s1,
     close Samples.open_popup_picker = (Returned tt, s1) /\
     (exists new,
        trace s1 = EFocus Samples.button :: new ++ trace Samples.open_popup_picker) /\
     _opened s1 = true /\
     _opened (snd (fire_timeout s1)) = false) /\
  (exists s1,
     close Samples.open_headless_picker = (Returned tt, s1) /\
     _opened s1 = false).
Proof.
  split; [| split].
  - apply (proj1 (close_restores_focus_then_finalizes Samples.popup_picker)
             Samples.open_popup_picker Samples.page);
      vm_compute; reflexivity.
  - destruct (proj1 (proj2 (close_restores_focus_then_finalizes
                              Samples.open_popup_picker))
                eq_refl Samples.button eq_refl eq_refl)
      as [s1 [new [Hc [Htr [_ [Ho [_ [_ [_ [Ho2 _]]]]]]]]]].
    exists s1. split; [exact Hc |]. split; [exists new; exact Htr |].
    split; [exact Ho | exact Ho2].
  - destruct (proj2 (proj2 (close_restores_focus_then_finalizes
                              Samples.open_headless_picker))
                eq_refl (or_introl eq_refl))
      as [s1 [new [Hc [_ [_ [Ho _]]]]]].
    exists s1. split; assumption.
Defined.

End Closing.

Section Dismissal.
Import EventLoop.

(** C6. [_createPopup] subscribes to the events of the overlay it creates.
    For a popup so subscribed, a backdrop click, a detachment, an Escape key
    press, and an Alt+Up key press while an input is registered each run
    [close()] (after [preventDefault()] when the stream carries an event
    object); any other key press does not reach the subscriber and leaves the
    datepicker untouched. *)
Theorem popup_dismissal_triggers :
  forall s : Datepicker,
    (forall s', _createPopup s = (Returned tt, s') ->
       _popupRef s' = Some (next_handle s) /\
       member (next_handle s) (popupSubs s') = true) /\
    (forall p, member p (popupSubs s) = true ->
       fire_popupEvent p BackdropClick s = (effect EPreventDefault ;; close) s /\
       fire_popupEvent p Detachment s = close s /\
       (forall k, keyCode k = ESCAPE ->
          fire_popupEvent p (Keydown k) s = (effect EPreventDefault ;; close) s) /\
       (forall k, _datepickerInput s <> None -> altKey k = true ->
          keyCode k = UP_ARROW ->
          fire_popupEvent p (Keydown k) s = (effect EPreventDefault ;; close) s) /\
       (forall k, keyCode k <> ESCAPE ->
          _datepickerInput s = None \/ altKey k = false \/ keyCode k <> UP_ARROW ->
          fire_popupEvent p (Keydown k) s = (Returned tt, s))).
Proof.
  intros s. split.
  - intros s'. destruct s as [t d o p dr pc f i doc m tr nh to ss as' ds ps].
    destruct i as [[cd org]|]; run_method; intros H; [| discriminate].
    inversion H. cbn. now rewrite Nat.eqb_refl.
  - intros p Hp.
    assert (Hfire : forall ev,
              fire_popupEvent p ev s =
              match ev with
              | Keydown k =>
                  if keydownFilter s k then popupSubscriber ev s
                  else (Returned tt, s)
              | _ => popupSubscriber ev s
              end).
    { intros ev. unfold fire_popupEvent, bind, read. cbv beta iota.
      rewrite Hp. destruct ev; try reflexivity.
      destruct (keydownFilter s k); reflexivity. }
    repeat split.
    + now rewrite Hfire.
    + rewrite Hfire. unfold popupSubscriber, bind, ret. reflexivity.
    + intros k Hk. rewrite Hfire. unfold keydownFilter.
      rewrite Hk, Z.eqb_refl. reflexivity.
    + intros k Hi Ha Hk. rewrite Hfire. unfold keydownFilter.
      rewrite Ha, Hk, Z.eqb_refl.
      destruct (_datepickerInput s); [| contradiction].
      now rewrite orb_true_r.
    + intros k Hk Hno. rewrite Hfire. unfold keydownFilter.
      apply Z.eqb_neq in Hk. rewrite Hk.
      destruct Hno as [Hi | [Ha | Hu]].
      * now rewrite Hi.
      * rewrite Ha. now rewrite andb_false_r.
      * apply Z.eqb_neq in Hu. rewrite Hu. now rewrite andb_false_r.
Qed.

Lemma popup_dismissal_triggers_witness :
  member 0 (popupSubs (snd (_createPopup Samples.popup_picker))) = true /\
  fire_popupEvent 0 BackdropClick Samples.open_popup_picker
    = (effect EPreventDefault ;; close) Samples.open_popup_picker /\
  fire_popupEvent 0 (Keydown (mkKey ESCAPE false)) Samples.open_popup_picker
    = (effect EPreventDefault ;; close) Samples.open_popup_picker /\
  fire_popupEvent 0 (Keydown (mkKey UP_ARROW true)) Samples.open_popup_picker
    = (effect EPreventDefault ;; close) Samples.open_popup_picker /\
  fire_popupEvent 0 (Keydown (mkKey UP_ARROW false)) Samples.open_popup_picker
    = (Returned tt, Samples.open_popup_picker).
Proof.
  destruct (proj2 (popup_dismissal_triggers Samples.open_popup_picker) 0 eq_refl)
    as [Hb [_ [He [Ha Hn]]]].
  split.
  { apply (proj1 (popup_dismissal_triggers Samples.popup_picker)
             (snd (_createPopup Samples.popup_picker))).
    vm_compute. reflexivity. }
  split; [exact Hb |].
  split; [apply He; reflexivity |].
  split; [apply Ha; [discriminate | reflexivity | reflexivity] |].
  apply Hn; [discriminate | right; left; reflexivity].
Defined.

End Dismissal.

Section Positioning.
Import EventLoop.

Lemma repeat_shift :
  forall (A : Type) (x : A) (n : nat) (l : list A),
    repeat x n ++ x :: l = x :: repeat x n ++ l.
Proof.
  intros A x n l. induction n as [| n IH]; [reflexivity |].
  cbn. now rewrite IH.
Qed.

Lemma updates_of_app :
  forall (p : OverlayRef) (l tr : list Effect),
    updates_of p (l ++ tr) = updates_of p l + updates_of p tr.
Proof.
  intros p l tr. unfold updates_of. now rewrite filter_app, length_app.
Qed.

Lemma updates_of_repeat :
  forall (p : OverlayRef) (n : nat),
    updates_of p (repeat (EUpdatePosition p) n) = n.
Proof.
  intros p n. induction n as [| n IH]; [reflexivity |].
  unfold updates_of in *. cbn. rewrite Nat.eqb_refl. cbn. now rewrite IH.
Qed.

(** [n] pending stabilisation subscribers re-measure the current popup [n]
    times and change nothing else. *)
Lemma stable_subscribers_run :
  forall n t d o p dr pc f i doc m tr nh to ss as' ds ps,
    repeatM n stableSubscriber
      (mkDatepicker t d o (Some p) dr pc f i doc m tr nh to ss as' ds ps) =
    (Returned tt,
     mkDatepicker t d o (Some p) dr pc f i doc m
       (repeat (EUpdatePosition p) n ++ tr) nh to ss as' ds ps).
Proof.
  induction n as [| n IH]; intros; [reflexivity |].
  cbn [repeatM]. unfold bind at 1, stableSubscriber at 1. run_method.
  rewrite IH. now rewrite repeat_shift.
Qed.

Lemma stable_idle :
  forall s : Datepicker, stableSubs s = 0 -> step s AStable = s.
Proof.
  intros [t d o p dr pc f i doc m tr nh to ss as' ds ps] H.
  cbn in H. subst ss. reflexivity.
Qed.

Lemma stable_idle_run :
  forall (n : nat) (s : Datepicker),
    stableSubs s = 0 -> run (repeat AStable n) s = s.
Proof.
  induction n as [| n IH]; intros s H; [reflexivity |].
  cbn. rewrite stable_idle by exact H. now apply IH.
Qed.

(** The reading "every popup is re-measured exactly once" does not hold of
    the code: after [open(); close(); open()] with no stabilisation in
    between, the subscriber of the first opening is still pending and the
    second popup is re-measured twice when the layout stabilizes. *)
Lemma popup_may_be_remeasured_twice :
  ~ AsStated.popup_remeasured_exactly_once.
Proof.
  intros H.
  specialize (H Samples.closing_headless_picker
                (snd (open Samples.closing_headless_picker)) 2).
  vm_compute in H.
  specialize (H eq_refl eq_refl eq_refl eq_refl eq_refl). discriminate H.
Qed.

(** C8. The subscriber that [_openAsPopup] hands to [onStable] reads
    [this._popupRef] when it fires instead of the popup it was registered
    for, so "re-measured exactly once" holds for a popup only while nothing
    else happens before the layout stabilizes:
    - [open(); close(); open()] in one turn on a datepicker whose [close()]
      finalizes at once, then stabilisation: the second popup is re-measured
      twice, the first never;
    - [open(); close()], the exit animation ends, then stabilisation: the
      popup is gone, the subscriber dereferences null and nothing is
      re-measured; likewise when the datepicker is destroyed right after
      [open()];
    - a single [open()] followed by stabilisations: once, as claimed. *)
Theorem remeasure_not_exactly_once :
  (let s := run [AOpen; AClose; AOpen; AStable] Samples.headless_picker in
   live_popups (trace s) = [2] /\
   updates_of 2 (trace s) = 2 /\ updates_of 0 (trace s) = 0) /\
  (let s := run [AOpen; AClose; AAnimationDone 1; AStable]
              Samples.headless_picker in
   updates_of 0 (trace s) = 0 /\
   hd_error (trace s) = Some EUncaughtTypeError) /\
  (let s := run [AOpen; ANgOnDestroy; AStable] Samples.popup_picker in
   updates_of 0 (trace s) = 0 /\
   hd_error (trace s) = Some EUncaughtTypeError) /\
  (let s := run [AOpen; AStable; AStable] Samples.popup_picker in
   updates_of 0 (trace s) = 1).
Proof. vm_compute. repeat split. Qed.

(** X17. Every opening as a popup creates exactly one overlay, whose
    position strategy is anchored to the registered input's overlay origin,
    tries bottom-start, top-start, bottom-end, top-end in that order, is
    locked, and keeps a viewport margin of 8; and it registers exactly one
    one-shot stabilisation subscriber.  If the layout stabilizes next, every
    pending subscriber re-measures the new popup and is gone; so when no
    earlier subscriber was pending, the popup is re-measured exactly once,
    however often the layout stabilizes after that. *)
Theorem popup_position_and_remeasure :
  forall s s' : Datepicker,
    _openAsPopup s = (Returned tt, s') ->
    exists input strategy new,
      _datepickerInput s = Some input /\
      _popupRef s' = Some (next_handle s) /\
      trace s' = new ++ trace s /\
      filter is_overlay_create new = [EOverlayCreate (next_handle s) strategy] /\
      ps_origin strategy = getConnectedOverlayOrigin input /\
      ps_positions strategy = [bottom_start; top_start; bottom_end; top_end] /\
      ps_positionLocked strategy = true /\
      ps_viewportMargin strategy = 8%Z /\
      stableSubs s' = S (stableSubs s) /\
      updates_of (next_handle s) (trace (step s' AStable)) =
        stableSubs s' + updates_of (next_handle s) (trace s') /\
      stableSubs (step s' AStable) = 0 /\
      (stableSubs s = 0 ->
       forall n,
         updates_of (next_handle s) (trace (run (repeat AStable (S n)) s')) =
           S (updates_of (next_handle s) (trace s'))).
Proof.
  intros s s' H.
  destruct s as [t d o p dr pc f i doc m tr nh to ss as' ds ps].
  revert H.
  destruct i as [[cd org]|], p as [p|], o, pc, dr, f as [[id [|]]|];
    run_method; intros H;
    try discriminate; inversion H; clear H;
    (do 3 eexists; split; [reflexivity |]; split; [reflexivity |];
     split; [cbn; segment |];
     split; [reflexivity |]; split; [reflexivity |]; split; [reflexivity |];
     split; [reflexivity |]; split; [reflexivity |]; split; [reflexivity |]);
    match goal with
    | |- context [step ?st AStable] =>
        assert (Hst : step st AStable =
                      with_stableSubs 0
                        (with_trace (repeat (EUpdatePosition nh) (S ss) ++ trace st) st))
          by (unfold step, perform, fire_stable; run_method;
              rewrite stable_subscribers_run; reflexivity)
    end;
    (split; [rewrite Hst; cbn [trace with_stableSubs with_trace];
             rewrite updates_of_app, updates_of_repeat; reflexivity |];
     split; [rewrite Hst; reflexivity |];
     intros Hss n; cbn in Hss; subst ss;
     change (repeat AStable (S n)) with (AStable :: repeat AStable n);
     cbn [run fold_left]; fold (run (repeat AStable n));
     rewrite stable_idle_run by (rewrite Hst; reflexivity);
     rewrite Hst; cbn [trace with_stableSubs with_trace];
     rewrite updates_of_app, updates_of_repeat; reflexivity).
Qed.

Lemma popup_position_and_remeasure_witness :
  exists strategy new,
    trace (snd (_openAsPopup Samples.popup_picker)) = new ++ [] /\
    filter is_overlay_create new = [EOverlayCreate 0 strategy] /\
    ps_positions strategy = [bottom_start; top_start; bottom_end; top_end] /\
    updates_of 0 (trace (run [AStable; AStable; AStable]
                           (snd (_openAsPopup Samples.popup_picker)))) = 1.
Proof.
  destruct (popup_position_and_remeasure Samples.popup_picker
              (s' := snd (_openAsPopup Samples.popup_picker)))
    as [input [strategy [new [_ [_ [Htr [Hf [_ [Hp [_ [_ [_ [_ [_ Hn]]]]]]]]]]]]]].
  { vm_compute. reflexivity. }
  exists strategy, new.
  split; [exact Htr |]. split; [exact Hf |]. split; [exact Hp |].
  exact (Hn eq_refl 2).
Defined.

End Positioning.

Section Handles.
Import EventLoop.

Lemma preserves_ret : forall (A : Type) (a : A), preserves (ret a).
Proof. intros A a s H. exact H. Qed.

Lemma preserves_read :
  forall (A : Type) (f : Datepicker -> A), preserves (read f).
Proof. intros A f s H. exact H. Qed.

Lemma preserves_bind :
  forall (A B : Type) (c : M A) (k : A -> M B),
    preserves c -> (forall a, preserves (k a)) -> preserves (bind c k).
Proof.
  intros A B c k Hc Hk s H. unfold bind.
  specialize (Hc s H). destruct (c s) as [[a | e] s1]; cbn in Hc.
  - apply Hk, Hc.
  - exact Hc.
Qed.

Lemma preserves_repeatM :
  forall (c : M unit) (n : nat), preserves c -> preserves (repeatM n c).
Proof.
  intros c n Hc. induction n as [| n IH]; cbn [repeatM].
  - apply preserves_ret.
  - apply preserves_bind; [exact Hc | intros _; exact IH].
Qed.

(** Finish a goal [consistent] on an explicit state from the facts about the
    trace before the call. *)
Ltac settle Hlp Hld Hone :=
  unfold consistent;
  cbn [trace _popupRef _dialogRef _touchUi at_most_one_live];
  unfold live_handles;
  cbn [live_popups live_dialogs olist];
  rewrite ?Hlp, ?Hld, ?Hone;
  cbn [olist drop filter List.length Nat.add Nat.leb andb negb];
  rewrite ?Nat.eqb_refl;
  cbn [olist drop filter List.length Nat.add Nat.leb andb negb];
  repeat split; reflexivity.

Ltac open_state s Hlp Hld Ht Hone :=
  destruct s as [t d o p dr pc f i doc m tr nh to ss as' ds ps];
  intros [Hlp [Hld [Ht Hone]]];
  cbn [trace _popupRef _dialogRef _touchUi] in Hlp, Hld, Ht, Hone;
  destruct t; subst.

Lemma open_preserves : preserves open.
Proof.
  intros s. open_state s Hlp Hld Ht Hone;
    destruct o, d as [[|]|], i as [[[|] org]|], doc as [[ae]|];
    try destruct dr; try destruct p;
    cbn [olist] in Hlp, Hld; run_method; settle Hlp Hld Hone.
Qed.

Lemma close_preserves : preserves close.
Proof.
  intros s. open_state s Hlp Hld Ht Hone;
    destruct o, pc, f as [[id [|]]|];
    try destruct dr; try destruct p;
    cbn [olist] in Hlp, Hld; run_method; settle Hlp Hld Hone.
Qed.

Lemma completeClose_preserves : preserves completeClose.
Proof.
  intros s. open_state s Hlp Hld Ht Hone;
    destruct o; try destruct dr; try destruct p;
    cbn [olist] in Hlp, Hld; run_method; settle Hlp Hld Hone.
Qed.

Lemma destroyPopup_preserves : preserves _destroyPopup.
Proof.
  intros s. open_state s Hlp Hld Ht Hone;
    destruct o, pc, f as [[id [|]]|];
    try destruct dr; try destruct p;
    cbn [olist] in Hlp, Hld; run_method; settle Hlp Hld Hone.
Qed.

Lemma stableSubscriber_preserves : preserves stableSubscriber.
Proof.
  intros s. open_state s Hlp Hld Ht Hone;
    try destruct dr; try destruct p;
    cbn [olist] in Hlp, Hld; unfold stableSubscriber; run_method;
    settle Hlp Hld Hone.
Qed.

Lemma neutral_effect_preserves :
  forall e : Effect,
    match e with
    | EOverlayCreate _ _ | EOverlayDispose _ | EDialogOpen _ | EDialogClose _ => False
    | _ => True
    end ->
    preserves (effect e).
Proof.
  intros e He s. open_state s Hlp Hld Ht Hone;
    try destruct dr; try destruct p;
    cbn [olist] in Hlp, Hld; destruct e; try contradiction;
    run_method; settle Hlp Hld Hone.
Qed.

(** Updates that touch neither the handles, the touch flag nor the trace. *)
Lemma bookkeeping_preserves :
  forall f : Datepicker -> Datepicker,
    (forall s, trace (f s) = trace s /\ _popupRef (f s) = _popupRef s /\
               _dialogRef (f s) = _dialogRef s /\ _touchUi (f s) = _touchUi s) ->
    preserves (update f).
Proof.
  intros f Hf s [Hlp [Hld [Ht Hone]]].
  destruct (Hf s) as [H1 [H2 [H3 H4]]].
  unfold consistent, update. cbn [snd]. rewrite H1, H2, H3, H4. auto.
Qed.

Lemma instance_consistent :
  forall touch dis input doc model,
    consistent (instance touch dis input doc model).
Proof.
  intros touch dis input doc model. unfold consistent. cbn.
  destruct touch; auto.
Qed.

Lemma perform_preserves :
  forall a : Action, keeps_touchUi a = true -> preserves (perform a).
Proof.
  intros a Ha. destruct a; cbn [perform]; try discriminate Ha.
  - apply open_preserves.
  - apply close_preserves.
  - destruct value; [apply open_preserves | apply close_preserves].
  - unfold set_disabled. apply preserves_bind; [apply preserves_read |].
    intros [b |]; [destruct (Bool.eqb value b); [apply preserves_ret |] |];
      (apply preserves_bind;
       [apply bookkeeping_preserves; intros s; repeat split
       | intros _; now apply neutral_effect_preserves]).
  - apply preserves_bind; [| intros _; apply preserves_ret].
    unfold _registerInput. apply preserves_bind; [apply preserves_read |].
    intros [old |]; [intros s H; exact H |].
    apply preserves_bind; [| intros _; apply preserves_read].
    apply bookkeeping_preserves. intros s. repeat split.
  - unfold ngOnDestroy.
    apply preserves_bind; [apply destroyPopup_preserves | intros _].
    apply preserves_bind; [apply close_preserves | intros _].
    now apply neutral_effect_preserves.
  - destruct model as [[|] |]; cbn;
      [apply close_preserves | apply preserves_ret | apply close_preserves].
  - unfold fire_timeout. apply preserves_bind; [apply preserves_read |].
    intros [| k]; [apply preserves_ret |].
    apply preserves_bind; [| intros _; apply completeClose_preserves].
    apply bookkeeping_preserves. intros s. repeat split.
  - unfold fire_stable. apply preserves_bind; [apply preserves_read | intros n].
    apply preserves_bind;
      [| intros _; apply preserves_repeatM, stableSubscriber_preserves].
    apply bookkeeping_preserves. intros s. repeat split.
  - unfold fire_animationDone.
    apply preserves_bind; [apply preserves_read | intros subs].
    apply preserves_bind;
      [| intros _; apply preserves_repeatM, destroyPopup_preserves].
    apply bookkeeping_preserves. intros s. repeat split.
  - unfold fire_afterClosed.
    apply preserves_bind; [apply preserves_read | intros subs].
    destruct (member d subs); [| apply preserves_ret].
    apply preserves_bind; [| intros _; apply close_preserves].
    apply bookkeeping_preserves. intros s. repeat split.
  - unfold fire_popupEvent.
    apply preserves_bind; [apply preserves_read | intros subs].
    assert (Hsub : forall ev', preserves (popupSubscriber ev')).
    { intros ev'. unfold popupSubscriber.
      apply preserves_bind; [| intros _; apply close_preserves].
      destruct ev'; try apply preserves_ret;
        now apply neutral_effect_preserves. }
    destruct (member p subs); [| apply preserves_ret].
    destruct ev; try apply Hsub.
    apply preserves_bind; [apply preserves_read | intros pass].
    destruct pass; [apply Hsub | apply preserves_ret].
  - apply bookkeeping_preserves. intros s.
    destruct (_document s); repeat split.
  - apply bookkeeping_preserves. intros s.
    destruct (_datepickerInput s); repeat split.
Qed.

Lemma run_preserves :
  forall (acts : list Action) (s : Datepicker),
    forallb keeps_touchUi acts = true ->
    consistent s -> consistent (run acts s).
Proof.
  induction acts as [| a acts IH]; intros s Hk Hs; [exact Hs |].
  cbn in Hk. apply andb_prop in Hk. destruct Hk as [Ha Hk].
  cbn [run fold_left]. apply IH; [exact Hk |].
  now apply perform_preserves.
Qed.

(** X18. As long as the touch-mode property is not reassigned: starting
    from any datepicker as its host sets it up, after any sequence of
    [open()]/[close()] calls interleaved in any way with the callbacks they
    registered (timeouts, animation ends, stabilisations, dialog closings,
    popup events) and with changes of the other properties, no point of the
    trace has more than one live handle, popup or dialog together, and the
    live handles are exactly the ones the object holds.  In any state,
    opening as a dialog closes the dialog held before opening the new one;
    opening as a popup disposes the popup held before creating the new one;
    and [_destroyPopup()] after [_destroyPopup()] changes nothing. *)
Theorem at_most_one_handle_live :
  (forall touch dis input doc model acts,
     forallb keeps_touchUi acts = true ->
     let s := run acts (instance touch dis input doc model) in
     at_most_one_live (trace s) = true /\
     live_handles (trace s) <= 1 /\
     live_popups (trace s) = olist (_popupRef s) /\
     live_dialogs (trace s) = olist (_dialogRef s)) /\
  (forall s d,
     _dialogRef s = Some d ->
     exists s' c,
       _openAsDialog s = (Returned tt, s') /\
       trace s' =
         EForwardContentValues c :: EDialogOpen (next_handle s)
           :: EDialogClose d :: trace s /\
       _dialogRef s' = Some (next_handle s)) /\
  (forall s s' p,
     _popupRef s = Some p ->
     _openAsPopup s = (Returned tt, s') ->
     exists new mid strategy,
       trace s' =
         new ++ EOverlayCreate (next_handle s) strategy
           :: mid ++ EOverlayDispose p :: trace s /\
       existsb is_overlay_create new = false /\
       existsb is_overlay_create mid = false /\
       _popupRef s' = Some (next_handle s)) /\
  (forall s,
     fst (_destroyPopup s) = Returned tt /\
     _popupRef (snd (_destroyPopup s)) = None /\
     _destroyPopup (snd (_destroyPopup s)) =
       (Returned tt, snd (_destroyPopup s))).
Proof.
  split; [| split; [| split]].
  - intros touch dis input doc model acts Hk s.
    destruct (run_preserves acts Hk
                (instance_consistent touch dis input doc model))
      as [Hlp [Hld [Ht Hone]]].
    fold s in Hlp, Hld, Ht, Hone.
    repeat split; try assumption.
    unfold live_handles. rewrite Hlp, Hld.
    destruct (_touchUi s); rewrite Ht; cbn;
      [destruct (_dialogRef s) | destruct (_popupRef s)]; cbn; lia.
  - intros s d H.
    destruct s as [t dd o p dr pc f i doc m tr nh to ss as' ds ps].
    cbn in H. subst dr. run_method. do 2 eexists. repeat split.
  - intros s s' p H.
    destruct s as [t dd o p0 dr pc f i doc m tr nh to ss as' ds ps].
    cbn in H. subst p0.
    destruct i as [[cd org] |], o, pc, dr, f as [[id [|]]|];
      run_method; intros E; try discriminate E;
      inversion E;
      exists [EForwardContentValues (S nh); EAttach nh (S nh); ESetRoleDialog nh];
      do 2 eexists;
      (split; [cbn [trace app next_handle];
               do 3 (apply (f_equal2 cons); [reflexivity |]);
               apply (f_equal2 cons); [reflexivity | segment] |];
       repeat split; reflexivity).
  - intros s.
    destruct s as [t dd o p dr pc f i doc m tr nh to ss as' ds ps].
    destruct p, o, pc, dr, f as [[id [|]]|]; run_method; repeat split.
Qed.

Lemma at_most_one_handle_live_witness :
  (let s := run [AOpen; AClose; AOpen; AClose; ATimeout; AOpen; AStable]
              (instance false None (Some Samples.field) (Some Samples.page) 0) in
   at_most_one_live (trace s) = true /\ live_handles (trace s) <= 1) /\
  (exists s',
     _openAsDialog Samples.open_touch_picker = (Returned tt, s') /\
     _dialogRef s' = Some 2) /\
  (exists s',
     _openAsPopup Samples.closing_headless_picker = (Returned tt, s') /\
     _popupRef s' = Some 2).
Proof.
  split; [| split].
  - destruct (proj1 at_most_one_handle_live false None (Some Samples.field)
                (Some Samples.page) 0
                [AOpen; AClose; AOpen; AClose; ATimeout; AOpen; AStable]
                eq_refl) as [H1 [H2 _]].
    split; assumption.
  - destruct (proj1 (proj2 at_most_one_handle_live)
                Samples.open_touch_picker 0 eq_refl)
      as [s' [c [H1 [_ H3]]]].
    exists s'. split; assumption.
  - destruct (proj1 (proj2 (proj2 at_most_one_handle_live))
                Samples.closing_headless_picker
                (snd (_openAsPopup Samples.closing_headless_picker)) 0)
      as [new [mid [strategy [_ [_ [_ H3]]]]]];
      [reflexivity | vm_compute; reflexivity |].
    eexists. split; [vm_compute; reflexivity | exact H3].
Defined.

(** With the touch-mode property reassigned between a close and the next
    open, the fading popup and the new dialog are alive together: the bound
    above is about sequences that leave the property alone. *)
Example touch_toggle_two_live :
  live_handles
    (trace (run [AOpen; AClose; ASetTouchUi true; AOpen]
              Samples.headless_picker)) = 2.
Proof. vm_compute. reflexivity. Qed.

(** C9. [_openAsPopup] disposes the popup held before creating one, and
    [_openAsDialog] closes the dialog held before opening one, so that, as
    the comment in [_openAsDialog] has it, only one overlay is open at a
    time.  Neither looks at the other kind.  When touch mode is switched on
    while a closed popup is still fading out, the next [open()] opens a
    dialog beside the popup's overlay, and two handles are alive: with or
    without a document, and from that state by a single [open()].  With the
    flag left alone the same calls keep to one handle. *)
Theorem touch_toggle_leaves_two_handles :
  (let s := run [AOpen; AClose; ASetTouchUi true; AOpen]
              Samples.headless_picker in
   live_popups (trace s) = [0] /\ live_dialogs (trace s) = [2] /\
   _popupRef s = Some 0 /\ _dialogRef s = Some 2 /\
   at_most_one_live (trace s) = false) /\
  (let s := run [AOpen; AClose; ATimeout; ASetTouchUi true; AOpen]
              Samples.popup_picker in
   live_handles (trace s) = 2) /\
  (let s := run [AOpen; AClose; ATimeout; ASetTouchUi true]
              Samples.popup_picker in
   live_handles (trace s) = 1 /\
   fst (open s) = Returned tt /\
   live_handles (trace (snd (open s))) = 2) /\
  (let s := run [AOpen; AClose; ATimeout; AOpen] Samples.popup_picker in
   live_handles (trace s) = 1 /\ at_most_one_live (trace s) = true).
Proof. vm_compute. repeat split. Qed.

End Handles.

(** * Further properties of the class *)

Section Invariants.
Import EventLoop.

Lemma keeps_ret : forall (I : Datepicker -> Prop) (A : Type) (a : A), keeps I (ret a).
Proof. intros I A a s H. exact H. Qed.

Lemma keeps_read :
  forall (I : Datepicker -> Prop) (A : Type) (f : Datepicker -> A),
    keeps I (read f).
Proof. intros I A f s H. exact H. Qed.

Lemma keeps_throw :
  forall (I : Datepicker -> Prop) (A : Type) (e : Error), keeps I (@throw A e).
Proof. intros I A e s H. exact H. Qed.

Lemma keeps_bind :
  forall (I : Datepicker -> Prop) (A B : Type) (c : M A) (k : A -> M B),
    keeps I c -> (forall a, keeps I (k a)) -> keeps I (bind c k).
Proof.
  intros I A B c k Hc Hk s H. unfold bind.
  specialize (Hc s H). destruct (c s) as [[a | e] s1]; cbn in Hc.
  - apply Hk, Hc.
  - exact Hc.
Qed.

Lemma keeps_repeatM :
  forall (I : Datepicker -> Prop) (c : M unit) (n : nat),
    keeps I c -> keeps I (repeatM n c).
Proof.
  intros I c n Hc. induction n as [| n IH]; cbn [repeatM].
  - apply keeps_ret.
  - apply keeps_bind; [exact Hc | intros _; exact IH].
Qed.

Lemma keeps_frame :
  forall (I : Datepicker -> Prop) (f : Datepicker -> Datepicker),
    framed I -> frame_update f -> keeps I (update f).
Proof. intros I f HI Hf s H. cbn. now apply HI. Qed.

Ltac frame_fields :=
  intros s; repeat split; try reflexivity; try (intros H; exact H).

(** What an invariant has to survive for every turn of the loop to keep it. *)
Lemma perform_keeps :
  forall I : Datepicker -> Prop,
    framed I ->
    keeps I open -> keeps I close -> keeps I completeClose ->
    keeps I _destroyPopup -> keeps I stableSubscriber ->
    (forall e, is_notice e = true -> keeps I (effect e)) ->
    forall a : Action, keeps I (perform a).
Proof.
  intros I HI Hopen Hclose Hcomplete Hdestroy Hstable Hnotice a.
  assert (Hupd : forall f, frame_update f -> keeps I (update f))
    by (intros f Hf; now apply keeps_frame).
  destruct a; cbn [perform].
  - exact Hopen.
  - exact Hclose.
  - destruct value; assumption.
  - unfold set_disabled. apply keeps_bind; [apply keeps_read |].
    intros [b |]; [destruct (Bool.eqb value b); [apply keeps_ret |] |];
      (apply keeps_bind;
       [apply Hupd; frame_fields | intros _; now apply Hnotice]).
  - apply Hupd. frame_fields.
  - apply keeps_bind; [| intros _; apply keeps_ret].
    unfold _registerInput. apply keeps_bind; [apply keeps_read |].
    intros [old |]; [apply keeps_throw |].
    apply keeps_bind; [| intros _; apply keeps_read].
    apply Hupd. frame_fields.
  - unfold ngOnDestroy.
    apply keeps_bind; [exact Hdestroy | intros _].
    apply keeps_bind; [exact Hclose | intros _].
    now apply Hnotice.
  - destruct model as [[|] |]; cbn;
      [exact Hclose | apply keeps_ret | exact Hclose].
  - unfold fire_timeout. apply keeps_bind; [apply keeps_read |].
    intros [| k]; [apply keeps_ret |].
    apply keeps_bind; [| intros _; exact Hcomplete].
    apply Hupd. frame_fields.
  - unfold fire_stable. apply keeps_bind; [apply keeps_read | intros n].
    apply keeps_bind; [| intros _; now apply keeps_repeatM].
    apply Hupd. frame_fields.
  - unfold fire_animationDone.
    apply keeps_bind; [apply keeps_read | intros subs].
    apply keeps_bind; [| intros _; now apply keeps_repeatM].
    apply Hupd. frame_fields.
  - unfold fire_afterClosed.
    apply keeps_bind; [apply keeps_read | intros subs].
    destruct (member d subs); [| apply keeps_ret].
    apply keeps_bind; [| intros _; exact Hclose].
    apply Hupd. frame_fields.
  - unfold fire_popupEvent.
    apply keeps_bind; [apply keeps_read | intros subs].
    assert (Hsub : forall ev', keeps I (popupSubscriber ev')).
    { intros ev'. unfold popupSubscriber.
      apply keeps_bind; [| intros _; exact Hclose].
      destruct ev'; try apply keeps_ret; now apply Hnotice. }
    destruct (member p subs); [| apply keeps_ret].
    destruct ev; try apply Hsub.
    apply keeps_bind; [apply keeps_read | intros pass].
    destruct pass; [apply Hsub | apply keeps_ret].
  - apply Hupd. intros s. destruct (_document s) eqn:E;
      repeat split; try reflexivity; try (intros H; exact H);
      cbn; intros H; try discriminate H; congruence.
  - apply Hupd. intros s. destruct (_datepickerInput s);
      repeat split; try reflexivity; intros H; exact H.
Qed.

Lemma run_keeps :
  forall I : Datepicker -> Prop,
    (forall a, keeps I (perform a)) ->
    forall (acts : list Action) (s : Datepicker), I s -> I (run acts s).
Proof.
  intros I HI. induction acts as [| a acts IH]; intros s Hs; [exact Hs |].
  cbn [run fold_left]. apply IH. now apply HI.
Qed.

End Invariants.

Section Notifications.
Import EventLoop.

Ltac open_fields s :=
  destruct s as [t d o p dr pc f i doc m tr nh to ss as' ds ps].

Ltac in_step_done Halt Hop :=
  unfold in_step; cbn [trace _opened alternating opened_after];
  rewrite ?Hop, ?Halt; cbn [negb andb]; split; reflexivity.

Ltac in_step_start s Halt Hop :=
  open_fields s; intros [Halt Hop]; cbn [trace _opened] in Halt, Hop.

Lemma in_step_framed : framed in_step.
Proof.
  intros f Hf s [Halt Hop]. destruct (Hf s) as [Ht [Ho _]].
  unfold in_step. now rewrite Ht, Ho.
Qed.

Lemma in_step_open : keeps in_step open.
Proof.
  intros s. in_step_start s Halt Hop.
  destruct o; [run_method; in_step_done Halt Hop |].
  destruct d as [[|]|], i as [[[|] org]|], doc as [[ae]|], t, dr, p;
    run_method; in_step_done Halt Hop.
Qed.

Lemma in_step_close : keeps in_step close.
Proof.
  intros s. in_step_start s Halt Hop.
  destruct o, pc, p, dr, f as [[id [|]]|];
    run_method; in_step_done Halt Hop.
Qed.

Lemma in_step_completeClose : keeps in_step completeClose.
Proof.
  intros s. in_step_start s Halt Hop.
  destruct o; run_method; in_step_done Halt Hop.
Qed.

Lemma in_step_destroyPopup : keeps in_step _destroyPopup.
Proof.
  intros s. in_step_start s Halt Hop.
  destruct p, o, pc, dr, f as [[id [|]]|]; run_method; in_step_done Halt Hop.
Qed.

Lemma in_step_stableSubscriber : keeps in_step stableSubscriber.
Proof.
  intros s. in_step_start s Halt Hop.
  destruct p; unfold stableSubscriber; run_method; in_step_done Halt Hop.
Qed.

Lemma in_step_notice :
  forall e, is_notice e = true -> keeps in_step (effect e).
Proof.
  intros e He s. in_step_start s Halt Hop.
  destruct e; try discriminate He; run_method; in_step_done Halt Hop.
Qed.

Lemma in_step_perform : forall a, keeps in_step (perform a).
Proof.
  apply perform_keeps.
  - exact in_step_framed.
  - exact in_step_open.
  - exact in_step_close.
  - exact in_step_completeClose.
  - exact in_step_destroyPopup.
  - exact in_step_stableSubscriber.
  - exact in_step_notice.
Qed.

(** X1. Whatever is called and whatever callback fires, in whatever order,
    the 'opened' and 'closed' notifications of a datepicker alternate,
    starting with 'opened', and the [opened] getter always says what the last
    notification said. *)
Theorem notifications_alternate :
  forall touch dis input doc model (acts : list Action),
    alternating (trace (run acts (instance touch dis input doc model))) = true /\
    opened (run acts (instance touch dis input doc model)) =
      opened_after (trace (run acts (instance touch dis input doc model))).
Proof.
  intros touch dis input doc model acts.
  assert (H0 : in_step (instance touch dis input doc model))
    by (split; reflexivity).
  destruct (@run_keeps in_step in_step_perform acts _ H0) as [Halt Hop].
  split; [exact Halt | symmetry; exact Hop].
Qed.

End Notifications.

Section Ownership.
Import EventLoop.

Ltac open_fields s :=
  destruct s as [t d o p dr pc f i doc m tr nh to ss as' ds ps].

Ltac owns_start s Hlp Hld Hrm :=
  open_fields s; intros [Hlp [Hld Hrm]];
  cbn [trace _popupRef _dialogRef] in Hlp, Hld, Hrm.

Ltac owns_done Hlp Hld Hrm :=
  unfold owns_live;
  cbn [trace _popupRef _dialogRef live_popups live_dialogs remeasures_live];
  rewrite ?Hlp, ?Hld, ?Hrm;
  cbn [olist drop filter member existsb negb orb andb];
  rewrite ?Nat.eqb_refl;
  cbn [olist drop filter member existsb negb orb andb];
  repeat split; reflexivity.

Lemma owns_framed : framed owns_live.
Proof.
  intros f Hf s [Hlp [Hld Hrm]].
  destruct (Hf s) as [Ht [_ [Hp [Hd _]]]].
  unfold owns_live. now rewrite Ht, Hp, Hd.
Qed.

Lemma owns_open : keeps owns_live open.
Proof.
  intros s. owns_start s Hlp Hld Hrm.
  destruct o; [run_method; owns_done Hlp Hld Hrm |].
  destruct d as [[|]|], i as [[[|] org]|], doc as [[ae]|], t, dr, p;
    cbn [olist] in Hlp, Hld; run_method; owns_done Hlp Hld Hrm.
Qed.

Lemma owns_close : keeps owns_live close.
Proof.
  intros s. owns_start s Hlp Hld Hrm.
  destruct o, pc, p, dr, f as [[id [|]]|];
    cbn [olist] in Hlp, Hld; run_method; owns_done Hlp Hld Hrm.
Qed.

Lemma owns_completeClose : keeps owns_live completeClose.
Proof.
  intros s. owns_start s Hlp Hld Hrm.
  destruct o; run_method; owns_done Hlp Hld Hrm.
Qed.

Lemma owns_destroyPopup : keeps owns_live _destroyPopup.
Proof.
  intros s. owns_start s Hlp Hld Hrm.
  destruct p, o, pc, dr, f as [[id [|]]|];
    cbn [olist] in Hlp, Hld; run_method; owns_done Hlp Hld Hrm.
Qed.

Lemma owns_stableSubscriber : keeps owns_live stableSubscriber.
Proof.
  intros s. owns_start s Hlp Hld Hrm.
  destruct p; cbn [olist] in Hlp; unfold stableSubscriber; run_method;
    owns_done Hlp Hld Hrm.
Qed.

Lemma owns_notice :
  forall e, is_notice e = true -> keeps owns_live (effect e).
Proof.
  intros e He s. owns_start s Hlp Hld Hrm.
  destruct e; try discriminate He; run_method; owns_done Hlp Hld Hrm.
Qed.

Lemma owns_perform : forall a, keeps owns_live (perform a).
Proof.
  apply perform_keeps.
  - exact owns_framed.
  - exact owns_open.
  - exact owns_close.
  - exact owns_completeClose.
  - exact owns_destroyPopup.
  - exact owns_stableSubscriber.
  - exact owns_notice.
Qed.

Lemma owns_run :
  forall touch dis input doc model (acts : list Action),
    owns_live (run acts (instance touch dis input doc model)).
Proof.
  intros. apply (@run_keeps owns_live owns_perform).
  repeat split.
Qed.

(** X2. Whatever is called and whatever callback fires, touch mode switched
    back and forth included, the overlays created and not yet disposed are
    exactly the one in [_popupRef], and the dialogs opened and not yet told to
    close are exactly the one in [_dialogRef]: no handle is ever dropped while
    alive, none is kept after its disposal, and never more than one popup and
    one dialog are alive. *)
Theorem held_handles_are_the_live_ones :
  forall touch dis input doc model (acts : list Action),
    live_popups (trace (run acts (instance touch dis input doc model))) =
      olist (_popupRef (run acts (instance touch dis input doc model))) /\
    live_dialogs (trace (run acts (instance touch dis input doc model))) =
      olist (_dialogRef (run acts (instance touch dis input doc model))) /\
    live_handles (trace (run acts (instance touch dis input doc model))) <= 2.
Proof.
  intros touch dis input doc model acts.
  destruct (owns_run touch dis input doc model acts) as [Hlp [Hld _]].
  repeat split; try assumption.
  unfold live_handles. rewrite Hlp, Hld.
  destruct (_popupRef _), (_dialogRef _); cbn; lia.
Qed.

(** X3. The stabilisation callback never re-measures a disposed overlay: in
    every run, each [updatePosition()] was called on an overlay alive at
    that moment. *)
Theorem remeasure_only_live_popups :
  forall touch dis input doc model (acts : list Action),
    remeasures_live (trace (run acts (instance touch dis input doc model))) = true.
Proof.
  intros touch dis input doc model acts.
  now destruct (owns_run touch dis input doc model acts) as [_ [_ Hrm]].
Qed.

(** X4. [ngOnDestroy()] never throws and always releases the popup: after
    it, in every run, no overlay is alive and the popup handle is null; and
    if the datepicker was marked open, no dialog is alive either. *)
Theorem ngOnDestroy_releases :
  forall touch dis input doc model (acts : list Action),
    let s := run acts (instance touch dis input doc model) in
    fst (ngOnDestroy s) = Returned tt /\
    _popupRef (snd (ngOnDestroy s)) = None /\
    live_popups (trace (snd (ngOnDestroy s))) = [] /\
    (_opened s = true ->
     _dialogRef (snd (ngOnDestroy s)) = None /\
     live_dialogs (trace (snd (ngOnDestroy s))) = []).
Proof.
  intros touch dis input doc model acts s.
  pose proof (owns_run touch dis input doc model acts) as H. fold s in H.
  clearbody s. clear touch dis input doc model acts.
  revert H. owns_start s Hlp Hld Hrm.
  destruct o, pc, p, dr, f as [[id [|]]|];
    cbn [olist] in Hlp, Hld; unfold ngOnDestroy; run_method;
    cbn [live_popups live_dialogs]; rewrite ?Hlp, ?Hld;
    cbn [olist drop filter negb]; rewrite ?Nat.eqb_refl;
    cbn [olist drop filter negb];
    repeat split; try reflexivity; congruence.
Qed.

Lemma ngOnDestroy_releases_witness :
  _dialogRef Samples.open_touch_picker = Some 0 /\
  _dialogRef (snd (ngOnDestroy (run [AOpen] Samples.touch_picker))) = None /\
  live_dialogs (trace (snd (ngOnDestroy (run [AOpen] Samples.touch_picker)))) = [].
Proof.
  split; [reflexivity |].
  apply (proj2 (proj2 (proj2
           (ngOnDestroy_releases true None (Some Samples.field)
              (Some Samples.page) 0 [AOpen])))).
  vm_compute. reflexivity.
Defined.

End Ownership.

Section Headless.
Import EventLoop.

Ltac headless_start s Hnf :=
  destruct s as [t d o p dr pc f i doc m tr nh to ss as' ds ps];
  intros [Hdoc [Hf Hnf]];
  cbn [trace _document _focusedElementBeforeOpen] in Hdoc, Hf, Hnf;
  subst doc f.

Ltac headless_done Hnf :=
  unfold headless;
  cbn [trace _document _focusedElementBeforeOpen existsb is_focus orb];
  rewrite ?Hnf; repeat split; reflexivity.

Lemma headless_framed : framed headless.
Proof.
  intros f Hf s [Hdoc [Hfo Hnf]].
  destruct (Hf s) as [Ht [_ [_ [_ [_ [Hfe Hd]]]]]].
  unfold headless. rewrite Ht, Hfe. repeat split; try assumption.
  now apply Hd.
Qed.

Lemma headless_open : keeps headless open.
Proof.
  intros s. headless_start s Hnf.
  destruct o; [run_method; headless_done Hnf |].
  destruct d as [[|]|], i as [[[|] org]|], t, dr, p;
    run_method; headless_done Hnf.
Qed.

Lemma headless_close : keeps headless close.
Proof.
  intros s. headless_start s Hnf.
  destruct o, pc, p, dr; run_method; headless_done Hnf.
Qed.

Lemma headless_completeClose : keeps headless completeClose.
Proof.
  intros s. headless_start s Hnf.
  destruct o; run_method; headless_done Hnf.
Qed.

Lemma headless_destroyPopup : keeps headless _destroyPopup.
Proof.
  intros s. headless_start s Hnf.
  destruct p, o, pc, dr; run_method; headless_done Hnf.
Qed.

Lemma headless_stableSubscriber : keeps headless stableSubscriber.
Proof.
  intros s. headless_start s Hnf.
  destruct p; unfold stableSubscriber; run_method; headless_done Hnf.
Qed.

Lemma headless_notice :
  forall e, is_notice e = true -> keeps headless (effect e).
Proof.
  intros e He s. headless_start s Hnf.
  destruct e; try discriminate He; run_method; headless_done Hnf.
Qed.

Lemma headless_perform : forall a, keeps headless (perform a).
Proof.
  apply perform_keeps.
  - exact headless_framed.
  - exact headless_open.
  - exact headless_close.
  - exact headless_completeClose.
  - exact headless_destroyPopup.
  - exact headless_stableSubscriber.
  - exact headless_notice.
Qed.

(** X5. A datepicker constructed without a document (the injection is
    optional) never records an element and never calls [focus()]; so each of
    its [close()] calls on an open datepicker marks it closed and emits
    'closed' before returning, and schedules nothing. *)
Theorem without_document_no_focus :
  forall touch dis input model (acts : list Action),
    let s := run acts (instance touch dis input None model) in
    existsb is_focus (trace s) = false /\
    _focusedElementBeforeOpen s = None /\
    (_opened s = true ->
     exists new,
       _opened (snd (close s)) = false /\
       trace (snd (close s)) = EClosed :: new ++ trace s /\
       timeouts (snd (close s)) = timeouts s).
Proof.
  intros touch dis input model acts s.
  assert (H : headless s).
  { apply (@run_keeps headless headless_perform). repeat split. }
  clearbody s. clear touch dis input model acts. revert H.
  headless_start s Hnf.
  split; [exact Hnf |]. split; [reflexivity |].
  cbn [_opened]. intros Ho. subst o.
  destruct pc, p, dr; run_method;
    (eexists; split; [reflexivity |]; split; [| reflexivity]);
    cbn; f_equal; segment.
Qed.

Lemma without_document_no_focus_witness :
  exists new,
    _opened (snd (close (run [AOpen] Samples.headless_picker))) = false /\
    trace (snd (close (run [AOpen] Samples.headless_picker))) =
      EClosed :: new ++ trace (run [AOpen] Samples.headless_picker).
Proof.
  destruct (proj2 (proj2 (without_document_no_focus false None
                            (Some Samples.field) 0 [AOpen])))
    as [new [H1 [H2 _]]].
  { vm_compute. reflexivity. }
  exists new. split; assumption.
Defined.

End Headless.

Section Disabling.
Import EventLoop.

Ltac open_fields s :=
  destruct s as [t d o p dr pc f i doc m tr nh to ss as' ds ps].

Ltac run_disabled := unfold set_disabled, step, perform; run_method;
  cbn [Bool.eqb]; run_method.

(** X6. The datepicker's own [disabled] property wins over the input's:
    after an assignment the getter returns the assigned value, and keeps
    returning it however the input is enabled or disabled afterwards.  While
    the property was never assigned, the getter follows the registered
    input. *)
Theorem disabled_own_value_wins :
  forall (s : Datepicker) (v : bool),
    fst (set_disabled v s) = Returned tt /\
    disabled (snd (set_disabled v s)) = v /\
    (forall b, disabled (step (snd (set_disabled v s)) (AInputDisabled b)) = v) /\
    (_disabled s = None -> _datepickerInput s <> None ->
     forall b, disabled (step s (AInputDisabled b)) = b).
Proof.
  intros s v. open_fields s.
  split; [| split; [| split]].
  - destruct d as [[|]|], v; run_disabled; reflexivity.
  - destruct d as [[|]|], v, i as [[cd org]|]; run_disabled; reflexivity.
  - intros b. destruct d as [[|]|], v, i as [[cd org]|]; run_disabled;
      reflexivity.
  - cbn [_disabled _datepickerInput]. intros Hd Hi b. subst d.
    destruct i as [[cd org]|]; [| contradiction]. run_disabled. reflexivity.
Qed.

Lemma disabled_own_value_wins_witness :
  disabled (step Samples.popup_picker (AInputDisabled true)) = true /\
  disabled (step (snd (set_disabled false Samples.popup_picker))
              (AInputDisabled true)) = false.
Proof.
  split.
  - apply (proj2 (proj2 (proj2 (disabled_own_value_wins
                                  Samples.popup_picker false))));
      [reflexivity | discriminate].
  - apply (proj1 (proj2 (proj2 (disabled_own_value_wins
                                  Samples.popup_picker false)))).
Defined.

(** X7. Assigning [disabled] notifies [_disabledChange] exactly when the
    value differs from the one stored, the first assignment (from
    [undefined]) included; assigning the stored value again does nothing at
    all, so the assignment is idempotent. *)
Theorem set_disabled_notifies_on_change :
  forall (s : Datepicker) (v : bool),
    (_disabled s = Some v -> set_disabled v s = (Returned tt, s)) /\
    (_disabled s <> Some v ->
     trace (snd (set_disabled v s)) = EDisabledChange v :: trace s /\
     _disabled (snd (set_disabled v s)) = Some v) /\
    set_disabled v (snd (set_disabled v s)) =
      (Returned tt, snd (set_disabled v s)).
Proof.
  intros s v. open_fields s. cbn [_disabled trace].
  split; [| split].
  - intros Hd. subst d. destruct v; run_disabled; reflexivity.
  - intros Hd. destruct d as [[|]|], v; try (now contradiction Hd);
      run_disabled; split; reflexivity.
  - destruct d as [[|]|], v; run_disabled; reflexivity.
Qed.

Lemma set_disabled_notifies_on_change_witness :
  set_disabled true Samples.disabled_orphan_picker =
    (Returned tt, Samples.disabled_orphan_picker) /\
  trace (snd (set_disabled false Samples.orphan_picker)) =
    [EDisabledChange false].
Proof.
  split.
  - apply (proj1 (set_disabled_notifies_on_change
                    Samples.disabled_orphan_picker true)).
    reflexivity.
  - apply (proj1 (proj2 (set_disabled_notifies_on_change
                           Samples.orphan_picker false))).
    discriminate.
Defined.

(** X8. Disabling an open datepicker neither closes it nor releases a
    handle, and [close()] does not look at the flag: on the disabled
    datepicker it returns and leaves the open flag, the handles, the recorded
    element and the pending timeouts exactly as it would have without the
    assignment. *)
Theorem disabling_does_not_block_close :
  forall (s : Datepicker) (v : bool),
    let s1 := snd (set_disabled v s) in
    _opened s1 = _opened s /\
    _popupRef s1 = _popupRef s /\
    _dialogRef s1 = _dialogRef s /\
    fst (close s1) = fst (close s) /\
    _opened (snd (close s1)) = _opened (snd (close s)) /\
    _popupRef (snd (close s1)) = _popupRef (snd (close s)) /\
    _dialogRef (snd (close s1)) = _dialogRef (snd (close s)) /\
    _focusedElementBeforeOpen (snd (close s1)) =
      _focusedElementBeforeOpen (snd (close s)) /\
    timeouts (snd (close s1)) = timeouts (snd (close s)) /\
    count_closed (trace (snd (close s1))) = count_closed (trace (snd (close s))).
Proof.
  intros s v. open_fields s.
  destruct d as [[|]|], v, o, pc, p, dr, f as [[id [|]]|];
    run_disabled; repeat split; reflexivity.
Qed.

(** X9. Of the two public methods only [open()] can throw, and it throws
    exactly when the datepicker is closed, not disabled, and has no input
    registered; [close()] always returns. *)
Theorem open_throws_exactly_without_input :
  forall s : Datepicker,
    ((exists e, fst (open s) = Thrown e) <->
     (_opened s = false /\ disabled s = false /\ _datepickerInput s = None)) /\
    fst (close s) = Returned tt.
Proof.
  intros s. open_fields s. split; [split |].
  - intros [e He]. revert He.
    destruct o, d as [[|]|], i as [[[|] org]|], doc as [[ae]|], t, dr, p;
      run_method; intros He; try discriminate He; repeat split; reflexivity.
  - cbn [_opened _datepickerInput]. intros [Ho [Hd Hi]]. subst o i.
    revert Hd. destruct d as [[|]|]; run_method; intros Hd;
      try discriminate Hd; eexists; reflexivity.
  - destruct o, pc, p, dr, f as [[id [|]]|]; run_method; reflexivity.
Qed.

Lemma open_throws_exactly_without_input_witness :
  (exists e, fst (open Samples.orphan_picker) = Thrown e) /\
  _datepickerInput Samples.orphan_picker = None.
Proof.
  split.
  - apply (proj2 (proj1 (open_throws_exactly_without_input
                           Samples.orphan_picker))).
    repeat split.
  - apply (proj1 (proj1 (open_throws_exactly_without_input
                           Samples.orphan_picker))).
    eexists. reflexivity.
Defined.

End Disabling.

Section TearDown.
Import EventLoop.

Ltac open_fields s :=
  destruct s as [t d o p dr pc f i doc m tr nh to ss as' ds ps].

Lemma member_drop :
  forall (n : nat) (l : list nat), member n (drop n l) = false.
Proof.
  intros n l. induction l as [| x l IH]; [reflexivity |].
  unfold drop, member in *. cbn [filter].
  destruct (Nat.eqb x n) eqn:E; cbn [negb]; [exact IH |].
  cbn [existsb]. rewrite Nat.eqb_sym, E. exact IH.
Qed.









(** X11. Closing an open dialog is immediate: [close()] tells the held
    dialog to close and clears the handle before it returns, whether or not
    the finalization is deferred. *)
Theorem dialog_closed_at_once :
  forall (s : Datepicker) (d : MatDialogRef),
    _opened s = true ->
    _dialogRef s = Some d ->
    _dialogRef (snd (close s)) = None /\
    live_dialogs (trace (snd (close s))) = drop d (live_dialogs (trace s)) /\
    (exists new,
       trace (snd (close s)) = new ++ trace s /\ In (EDialogClose d) new).
Proof.
  intros s d0 Ho Hd. open_fields s.
  cbn [_opened _dialogRef] in Ho, Hd. subst o dr.
  destruct pc, p, f as [[id [|]]|]; run_method;
    (split; [reflexivity |]; split; [reflexivity |];
     eexists; split; [cbn; segment | cbn; tauto]).
Qed.

Lemma dialog_closed_at_once_witness :
  _dialogRef (snd (close Samples.open_touch_picker)) = None /\
  live_dialogs (trace (snd (close Samples.open_touch_picker))) = [].
Proof.
  destruct (dialog_closed_at_once Samples.open_touch_picker (d := 0)
              eq_refl eq_refl) as [H1 [H2 _]].
  split; [exact H1 |]. rewrite H2. reflexivity.
Defined.

Lemma close_keeps_dialogSubs :
  forall s : Datepicker, dialogSubs (snd (close s)) = dialogSubs s.
Proof.
  intros s. open_fields s.
  destruct o, pc, p, dr, f as [[id [|]]|]; run_method; reflexivity.
Qed.

(** X12. A dialog's own dismissal closes the datepicker: [_openAsDialog]
    subscribes to the new dialog's [afterClosed()], the emission runs
    [close()], and the subscription is then spent, a second emission for the
    same dialog changing nothing. *)
Theorem dialog_dismissal_closes :
  forall s : Datepicker,
    (forall s', _openAsDialog s = (Returned tt, s') ->
       _dialogRef s' = Some (next_handle s) /\
       member (next_handle s) (dialogSubs s') = true) /\
    (forall d, member d (dialogSubs s) = true ->
       fire_afterClosed d s =
         close (with_dialogSubs (drop d (dialogSubs s)) s) /\
       fire_afterClosed d (snd (fire_afterClosed d s)) =
         (Returned tt, snd (fire_afterClosed d s))) /\
    (forall d, member d (dialogSubs s) = false ->
       fire_afterClosed d s = (Returned tt, s)).
Proof.
  intros s. split; [| split].
  - intros s'. open_fields s.
    destruct dr; run_method; intros H; inversion H; cbn;
      now rewrite Nat.eqb_refl.
  - intros d0 Hm.
    assert (E : fire_afterClosed d0 s =
                close (with_dialogSubs (drop d0 (dialogSubs s)) s)).
    { unfold fire_afterClosed, bind, read, update. cbv beta iota.
      now rewrite Hm. }
    split; [exact E |].
    unfold fire_afterClosed at 1. unfold bind, read. cbv beta iota.
    rewrite E, close_keeps_dialogSubs.
    replace (dialogSubs (with_dialogSubs (drop d0 (dialogSubs s)) s))
      with (drop d0 (dialogSubs s)) by (destruct s; reflexivity).
    now rewrite member_drop.
  - intros d0 Hm. unfold fire_afterClosed, bind, read. cbv beta iota.
    now rewrite Hm.
Qed.

Lemma dialog_dismissal_closes_witness :
  member 0 (dialogSubs (snd (_openAsDialog Samples.touch_picker))) = true /\
  _opened (snd (fire_afterClosed 0 Samples.open_headless_picker)) = true /\
  fire_afterClosed 0 Samples.open_touch_picker =
    close (with_dialogSubs [] Samples.open_touch_picker).
Proof.
  split; [| split].
  - apply (proj1 (dialog_dismissal_closes Samples.touch_picker)
             (snd (_openAsDialog Samples.touch_picker))).
    vm_compute. reflexivity.
  - rewrite (proj2 (proj2 (dialog_dismissal_closes
                             Samples.open_headless_picker)) 0 eq_refl).
    reflexivity.
  - apply (proj1 (proj2 (dialog_dismissal_closes Samples.open_touch_picker))
             0 eq_refl).
Defined.

End TearDown.

Section QuickSuccession.
Import EventLoop.

Ltac open_fields s :=
  destruct s as [t d o p dr pc f i doc m tr nh to ss as' ds ps].

Lemma run_app :
  forall (l1 l2 : list Action) (s : Datepicker),
    run (l1 ++ l2) s = run l2 (run l1 s).
Proof. intros. unfold run. apply fold_left_app. Qed.

Lemma close_deferred_state :
  forall (s : Datepicker) (e : HTMLElement),
    _opened s = true -> _focusedElementBeforeOpen s = Some e ->
    el_has_focus e = true ->
    _opened (snd (close s)) = true /\
    _focusedElementBeforeOpen (snd (close s)) = Some e /\
    timeouts (snd (close s)) = S (timeouts s) /\
    count_closed (trace (snd (close s))) = count_closed (trace s).
Proof.
  intros s [id hf] Ho Hf He. open_fields s.
  cbn [_opened _focusedElementBeforeOpen el_has_focus] in Ho, Hf, He.
  subst o f hf.
  destruct pc, p, dr; run_method; repeat split; reflexivity.
Qed.

Lemma closes_deferred_state :
  forall (n : nat) (s : Datepicker) (e : HTMLElement),
    _opened s = true -> _focusedElementBeforeOpen s = Some e ->
    el_has_focus e = true ->
    _opened (run (repeat AClose n) s) = true /\
    timeouts (run (repeat AClose n) s) = n + timeouts s /\
    count_closed (trace (run (repeat AClose n) s)) = count_closed (trace s).
Proof.
  induction n as [| n IH]; intros s e Ho Hf He; [repeat split; assumption |].
  change (run (repeat AClose (S n)) s)
    with (run (repeat AClose n) (step s AClose)).
  destruct (close_deferred_state s Ho Hf He) as [Ho1 [Hf1 [Ht1 Hc1]]].
  destruct (IH (step s AClose) e Ho1 Hf1 He) as [Ho2 [Ht2 Hc2]].
  repeat split; [exact Ho2 | | ].
  - rewrite Ht2. unfold step, perform. rewrite Ht1. lia.
  - rewrite Hc2. exact Hc1.
Qed.

Lemma timeout_finalizes :
  forall (s : Datepicker) (k : nat),
    _opened s = true -> timeouts s = S k ->
    _opened (step s ATimeout) = false /\
    timeouts (step s ATimeout) = k /\
    count_closed (trace (step s ATimeout)) = S (count_closed (trace s)).
Proof.
  intros s k Ho Ht. open_fields s. cbn [_opened timeouts] in Ho, Ht.
  subst o to. unfold step, perform, fire_timeout. run_method.
  repeat split; reflexivity.
Qed.

Lemma timeouts_idle_when_closed :
  forall (n : nat) (s : Datepicker),
    _opened s = false ->
    _opened (run (repeat ATimeout n) s) = false /\
    timeouts (run (repeat ATimeout n) s) = timeouts s - n /\
    count_closed (trace (run (repeat ATimeout n) s)) = count_closed (trace s).
Proof.
  induction n as [| n IH]; intros s Ho.
  - repeat split; [assumption | cbn; lia].
  - change (run (repeat ATimeout (S n)) s)
      with (run (repeat ATimeout n) (step s ATimeout)).
    assert (H1 : _opened (step s ATimeout) = false /\
                 timeouts (step s ATimeout) = timeouts s - 1 /\
                 trace (step s ATimeout) = trace s).
    { open_fields s. cbn [_opened] in Ho. subst o.
      unfold step, perform, fire_timeout.
      destruct to; run_method; repeat split; try reflexivity; cbn; lia. }
    destruct H1 as [Ho1 [Ht1 Htr1]].
    destruct (IH (step s ATimeout) Ho1) as [Ho2 [Ht2 Hc2]].
    repeat split; [exact Ho2 | rewrite Ht2, Ht1; lia | now rewrite Hc2, Htr1].
Qed.

(** X13. Calls of [close()] that arrive in quick succession, before the
    deferred finalization has run, each pass the guard, refocus and schedule
    a finalization of their own; when the timeouts come due the first one
    marks the datepicker closed and emits 'closed', and the others find it
    closed and do nothing.  So 'closed' is emitted once, however many calls
    there were. *)
Theorem closed_emitted_once_for_repeated_close :
  forall (s : Datepicker) (e : HTMLElement) (n : nat),
    _opened s = true ->
    _focusedElementBeforeOpen s = Some e ->
    el_has_focus e = true ->
    let s' := run (repeat AClose (S n) ++ repeat ATimeout (S n)) s in
    _opened s' = false /\
    count_closed (trace s') = S (count_closed (trace s)) /\
    timeouts s' = timeouts s.
Proof.
  intros s e n Ho Hf He s'. subst s'. rewrite run_app.
  destruct (closes_deferred_state (S n) s Ho Hf He) as [Ho1 [Ht1 Hc1]].
  set (s1 := run (repeat AClose (S n)) s) in *.
  change (run (repeat ATimeout (S n)) s1)
    with (run (repeat ATimeout n) (step s1 ATimeout)).
  destruct (@timeout_finalizes s1 (n + timeouts s) Ho1 Ht1) as [Ho2 [Ht2 Hc2]].
  destruct (timeouts_idle_when_closed n (step s1 ATimeout) Ho2)
    as [Ho3 [Ht3 Hc3]].
  repeat split; [exact Ho3 | | ].
  - rewrite Hc3, Hc2, Hc1. reflexivity.
  - rewrite Ht3, Ht2. lia.
Qed.

Lemma closed_emitted_once_for_repeated_close_witness :
  count_closed
    (trace (run [AClose; AClose; AClose; ATimeout; ATimeout; ATimeout]
              Samples.open_popup_picker)) = 1.
Proof.
  exact (proj1 (proj2
           (closed_emitted_once_for_repeated_close Samples.open_popup_picker
              (e := Samples.button) 2 eq_refl eq_refl eq_refl))).
Defined.

End QuickSuccession.

Section Identity.

Lemma append_inj_l :
  forall p a b : string, String.append p a = String.append p b -> a = b.
Proof.
  induction p as [| ch p IH]; intros a b H; [exact H |].
  cbn in H. injection H as H. now apply IH.
Qed.

Lemma datepicker_id_inj :
  forall a b : N, datepicker_id a = datepicker_id b -> a = b.
Proof.
  intros a b H. unfold datepicker_id in H. apply append_inj_l in H.
  apply Unsigned.to_uint_inj.
  assert (E : Some (N.to_uint a) = Some (N.to_uint b)).
  { rewrite <- (NilEmpty.usu (N.to_uint a)), <- (NilEmpty.usu (N.to_uint b)).
    now rewrite H. }
  now injection E.
Qed.

Lemma js_increment_le : forall x : N, (x <= js_increment x)%N.
Proof.
  intros x. unfold js_increment. destruct (N.ltb_spec x MAX_EXACT); lia.
Qed.

Lemma js_increment_exact :
  forall x : N, (x < MAX_EXACT)%N -> js_increment x = (x + 1)%N.
Proof.
  intros x H. unfold js_increment.
  destruct (N.ltb_spec x MAX_EXACT); lia.
Qed.

Lemma ids_from_in :
  forall (n : nat) (uid : N) (x : string),
    In x (ids_from uid n) ->
    exists k : N, (uid <= k)%N /\ x = datepicker_id k.
Proof.
  induction n as [| n IH]; intros uid x H; [contradiction |].
  cbn [ids_from new_id fst snd] in H. destruct H as [H | H].
  - exists uid. split; [lia | now symmetry].
  - destruct (IH _ _ H) as [k [Hk Hx]]. exists k.
    pose proof (js_increment_le uid). split; [lia | exact Hx].
Qed.

(** X14. Datepicker ids are unique as long as the counter has room: when
    the [n] constructions keep the counter within 2^53, where a JavaScript
    number still counts exactly, the [n] ids are pairwise different and the
    counter has advanced by [n].  At 2^53 the increment no longer advances
    the counter. *)
Theorem datepicker_ids_unique :
  forall (datepickerUid : N) (n : nat),
    (datepickerUid + N.of_nat n <= MAX_EXACT)%N ->
    NoDup (ids_from datepickerUid n) /\
    List.length (ids_from datepickerUid n) = n /\
    counter_after datepickerUid n = (datepickerUid + N.of_nat n)%N /\
    snd (new_id MAX_EXACT) = MAX_EXACT.
Proof.
  intros uid n H. split; [| split; [| split]].
  - revert uid H. induction n as [| n IH]; intros uid H; [constructor |].
    cbn [ids_from new_id fst snd].
    rewrite js_increment_exact by lia.
    constructor; [| apply IH; lia].
    intros Hin. apply ids_from_in in Hin. destruct Hin as [k [Hk Hx]].
    apply datepicker_id_inj in Hx. lia.
  - clear H. revert uid. induction n as [| n IH]; intros uid; [reflexivity |].
    cbn [ids_from List.length]. now rewrite IH.
  - revert uid H. induction n as [| n IH]; intros uid H; [cbn; lia |].
    cbn [counter_after new_id snd].
    rewrite js_increment_exact by lia. rewrite IH by lia. lia.
  - reflexivity.
Qed.

Lemma datepicker_ids_unique_witness :
  NoDup (ids_from 9 3) /\
  ids_from 9 3 = ["mat-datepicker-9"; "mat-datepicker-10"; "mat-datepicker-11"]%string /\
  counter_after 9 3 = 12%N.
Proof.
  split; [| split].
  - apply (datepicker_ids_unique 9 3). vm_compute. discriminate.
  - reflexivity.
  - apply (datepicker_ids_unique 9 3). vm_compute. discriminate.
Defined.

End Identity.

Section StartAtProperty.
Variable Any : Type.
Variable adapter : DateAdapter Any.
Variable truthy : Any -> bool.

(** X15. The [startAt] setter keeps only what the date adapter deserializes
    to a valid date instance: anything else, [null] included, clears the
    explicit start date, and the getter then answers with the registered
    input's start value, or [null] without an input.  A kept date that is
    truthy is what the getter answers, whatever the input says. *)
Theorem startAt_keeps_only_valid_dates :
  forall (value : option Any) (inputStart : option (option Any)),
    (forall d, set_startAt adapter value = Some d ->
       deserialize adapter value = Some d /\
       isDateInstance adapter (Some d) = true /\
       isValid adapter (Some d) = true /\
       (truthy d = true ->
        startAt truthy (set_startAt adapter value) inputStart = Some d)) /\
    (isDateInstance adapter (deserialize adapter value)
       && isValid adapter (deserialize adapter value) = false ->
     set_startAt adapter value = None /\
     startAt truthy (set_startAt adapter value) inputStart =
       match inputStart with Some v => v | None => None end) /\
    (deserialize adapter value = None -> set_startAt adapter value = None).
Proof.
  intros value inputStart. unfold set_startAt, _getValidDateOrNull.
  split; [| split].
  - intros d0 H.
    destruct (isDateInstance adapter (deserialize adapter value)
              && isValid adapter (deserialize adapter value)) eqn:E;
      [| discriminate H].
    rewrite H in E. apply andb_prop in E. destruct E as [E1 E2].
    repeat split; try assumption.
    intros Ht. rewrite H. unfold startAt. now rewrite Ht.
  - intros E. rewrite E. split; reflexivity.
  - intros E. rewrite E.
    now destruct (isDateInstance adapter None && isValid adapter None).
Qed.

End StartAtProperty.

(** Dates as day numbers, valid below 100; every value is truthy but day 0. *)
Lemma startAt_keeps_only_valid_dates_witness :
  let adapter :=
    mkDateAdapter (fun v : option nat => v)
      (fun v => match v with Some _ => true | None => false end)
      (fun v => match v with Some n => Nat.ltb n 100 | None => false end) in
  let truthy := fun n : nat => negb (Nat.eqb n 0) in
  startAt truthy (set_startAt adapter (Some 7)) (Some (Some 3)) = Some 7 /\
  startAt truthy (set_startAt adapter (Some 500)) (Some (Some 3)) = Some 3 /\
  set_startAt adapter None = None.
Proof.
  intros adapter truthy.
  pose proof (startAt_keeps_only_valid_dates adapter truthy) as H.
  split; [| split].
  - apply (proj1 (H (Some 7) (Some (Some 3))) 7); reflexivity.
  - apply (proj1 (proj2 (H (Some 500) (Some (Some 3))))). reflexivity.
  - apply (proj2 (proj2 (H None None))). reflexivity.
Defined.

Section ContentLifetime.
Import EventLoop.






End ContentLifetime.
